(** * codecount: the line classifier and its language table

    A shallow embedding of [codecount.go]: the [Language] table, the
    [extensions] index built from it, the per-file scanner [File.scan] with
    its three states, and the [walkFunc] callback that feeds it.

    Conventions of the embedding:
    - a Go [string] is a sequence of bytes: Rocq's [string] of 8-bit [ascii];
    - a Go [int] is a [Z] in the signed 64-bit range, [++] wraps around;
    - the map [extensions] is a [gmap string Language], and indexing a
      missing key yields the zero [Language], as in Go;
    - [panic(err)] is the [Panic] outcome of the [Result] type;
    - the outside world (what [os.Open] and [bufio.Scanner] deliver) is an
      explicit argument. *)

From Stdlib Require Import ZArith String Ascii List Bool Lia.
From Stdlib Require Import Sorting.Sorted Sorting.Permutation OrdersEx.
From stdpp Require Import base gmap strings list.

Local Open Scope string_scope.
Local Open Scope Z_scope.

(** ** Go's [int] *)

Module GoInt.

Definition modulus : Z := 2 ^ 64.
Definition maxInt : Z := 2 ^ 63 - 1.
Definition minInt : Z := - 2 ^ 63.

(** Two's complement wrap-around into [minInt .. maxInt]. *)
Definition wrap (x : Z) : Z := (x + 2 ^ 63) mod modulus - 2 ^ 63.

Definition add (x y : Z) : Z := wrap (x + y).

(** [x++] *)
Definition incr (x : Z) : Z := add x 1.

Definition inRange (x : Z) : Prop := minInt <= x <= maxInt.

End GoInt.

(** ** The functions of Go's [strings] and [path/filepath] that the
    program calls *)

Module strings.

Definition byteOf (c : ascii) : N := N_of_ascii c.

(** [len(s)] as an [int]. *)
Definition len (s : string) : Z := Z.of_nat (String.length s).

(** [strings.HasPrefix(s, prefix)]:
    [len(s) >= len(prefix) && s[0:len(prefix)] == prefix]. *)
Fixpoint HasPrefix (s prefix : string) {struct prefix} : bool :=
  match prefix with
  | EmptyString => true
  | String p prefix' =>
      match s with
      | EmptyString => false
      | String c s' => Ascii.eqb c p && HasPrefix s' prefix'
      end
  end.

(** [s[i:]] for [i] counted in bytes. *)
Fixpoint drop (i : nat) (s : string) : string :=
  match i, s with
  | O, _ => s
  | S i', String _ s' => drop i' s'
  | S _, EmptyString => EmptyString
  end.

(** The search loop of [strings.LastIndex] for a non-empty [sep]: the
    greatest index at which [sep] occurs in [s], offset by [i], or [-1].
    Go runs the index down from [len(s) - len(sep)]; the recursion below
    prefers a match further to the right in the same way. *)
Fixpoint lastIndexFrom (i : Z) (s sep : string) : Z :=
  match s with
  | EmptyString => -1
  | String _ s' =>
      let r := lastIndexFrom (i + 1) s' sep in
      if 0 <=? r then r
      else if HasPrefix s sep then i else -1
  end.

(** [strings.LastIndex(s, sep)]: [len(s)] for the empty [sep]. *)
Definition LastIndex (s sep : string) : Z :=
  match sep with
  | EmptyString => len s
  | _ => lastIndexFrom 0 s sep
  end.

(** *** [strings.TrimSpace]

    Go trims the runes for which [unicode.IsSpace] holds, decoding UTF-8
    from either end; an invalid byte decodes to [RuneError], which is not
    a space.  Every white-space rune has exactly one valid encoding, so a
    rune at the front (or at the back) of a string is a space exactly when
    the string starts (or ends) with one of the byte sequences below. *)

(** The one-byte spaces: tab, LF, VT, FF, CR and the blank. *)
Definition asciiSpace (b : N) : bool :=
  ((9 <=? b) && (b <=? 13) || (b =? 32))%N.

(** U+0085 and U+00A0: [C2 85] and [C2 A0]. *)
Definition space2 (b0 b1 : N) : bool :=
  ((b0 =? 194) && ((b1 =? 133) || (b1 =? 160)))%N.

(** U+1680 [E1 9A 80]; U+2000..U+200A [E2 80 80..8A]; U+2028, U+2029 and
    U+202F [E2 80 A8], [E2 80 A9], [E2 80 AF]; U+205F [E2 81 9F];
    U+3000 [E3 80 80]. *)
Definition space3 (b0 b1 b2 : N) : bool :=
  ((b0 =? 225) && (b1 =? 154) && (b2 =? 128)
   || (b0 =? 226) && (b1 =? 128)
        && ((128 <=? b2) && (b2 <=? 138)
            || (b2 =? 168) || (b2 =? 169) || (b2 =? 175))
   || (b0 =? 226) && (b1 =? 129) && (b2 =? 159)
   || (b0 =? 227) && (b1 =? 128) && (b2 =? 128))%N.

(** [TrimLeftFunc(s, unicode.IsSpace)] *)
Fixpoint TrimLeft (s : string) : string :=
  match s with
  | EmptyString => EmptyString
  | String c0 r0 =>
      if asciiSpace (byteOf c0) then TrimLeft r0
      else
        match r0 with
        | EmptyString => s
        | String c1 r1 =>
            if space2 (byteOf c0) (byteOf c1) then TrimLeft r1
            else
              match r1 with
              | EmptyString => s
              | String c2 r2 =>
                  if space3 (byteOf c0) (byteOf c1) (byteOf c2)
                  then TrimLeft r2
                  else s
              end
        end
  end.

Definition isEmpty (s : string) : bool :=
  match s with EmptyString => true | _ => false end.

(** [TrimRightFunc(s, unicode.IsSpace)]: cut the longest suffix made of
    spaces only. *)
Fixpoint TrimRight (s : string) : string :=
  match s with
  | EmptyString => EmptyString
  | String c s' =>
      if isEmpty (TrimLeft s) then EmptyString else String c (TrimRight s')
  end.

Definition TrimSpace (s : string) : string := TrimRight (TrimLeft s).

(** *** [strings.ToLower]

    The ASCII letters [A]..[Z] go to [a]..[z].  Of the runes outside ASCII
    only U+0130 [C4 B0] and U+212A [E2 84 AA] have an ASCII lower case
    ([i] and [k]); the others are left as they are here, where Go maps
    them to runes that are again outside ASCII. *)
Definition lowerByte (c : ascii) : ascii :=
  let b := byteOf c in
  if ((65 <=? b) && (b <=? 90))%N then ascii_of_N (b + 32) else c.

Fixpoint ToLower (s : string) : string :=
  match s with
  | EmptyString => EmptyString
  | String c0 r0 =>
      match r0 with
      | String c1 r1 =>
          if ((byteOf c0 =? 196) && (byteOf c1 =? 176))%N
          then String "i" (ToLower r1)
          else
            match r1 with
            | String c2 r2 =>
                if ((byteOf c0 =? 226) && (byteOf c1 =? 132)
                    && (byteOf c2 =? 170))%N
                then String "k" (ToLower r2)
                else String (lowerByte c0) (ToLower r0)
            | EmptyString => String (lowerByte c0) (ToLower r0)
            end
      | EmptyString => String (lowerByte c0) EmptyString
      end
  end.

End strings.

Module filepath.

(** The loop of [filepath.Ext] run from the front: [extFrom s] is the
    suffix of [s] from its last dot, provided no path separator follows
    that dot. *)
Fixpoint extFrom (s : string) : option string :=
  match s with
  | EmptyString => None
  | String c s' =>
      match extFrom s' with
      | Some e => Some e
      | None =>
          if Ascii.eqb c "." then
            if existsb (Ascii.eqb "/") (list_ascii_of_string s')
            then None else Some s
          else None
      end
  end.

(** [filepath.Ext(path)]: the suffix beginning at the final dot of the
    final path element, or the empty string. *)
Definition Ext (path : string) : string :=
  match extFrom path with Some e => e | None => EmptyString end.

End filepath.

Import strings.

(** ** The data of [codecount.go] *)

Record Language := {
  name : string;             (* Print name *)
  extension : list string;   (* File Extensions *)
  openblock : string;        (* Block comment opening *)
  closeblock : string;       (* Block comment closing *)
  comment : string;          (* Line comment markers *)
  endmark : string           (* End of code marker *)
}.

(** What the program reads of an [os.FileInfo]. *)
Record FileInfo := {
  Name : string;
  Size : Z;
  IsDir : bool
}.

Record File := {
  path : string;       (* Path of the file *)
  info : FileInfo;     (* Complete file info *)
  lang : Language;     (* Language *)
  scanned : bool;      (* Was this scanned *)
  lines : Z;           (* Total Lines *)
  comments : Z;        (* Comment Lines *)
  blanks : Z;          (* Blank Lines *)
  code : Z             (* Code Lines *)
}.

(** The zero value of [Language], which indexing [extensions] at a missing
    key returns. *)
Definition zeroLanguage : Language :=
  {| name := ""; extension := []; openblock := ""; closeblock := "";
     comment := ""; endmark := "" |}.

Definition mkLanguage (n : string) (exts : list string)
    (ob cb c e : string) : Language :=
  {| name := n; extension := exts; openblock := ob; closeblock := cb;
     comment := c; endmark := e |}.

Definition languages : list Language := [
  mkLanguage "Assembly" [".s"] "" "" ";" "";
  mkLanguage "Batch" [".bat"] "" "" "REM" "";
  mkLanguage "C" [".c"] "/*" "*/" "//" "";
  mkLanguage "C++" [".cpp"] "/*" "*/" "//" "";
  mkLanguage "C/C++ Header" [".h"] "/*" "*/" "//" "";
  mkLanguage "CSS" [".css"] "/*" "*/" "" "";
  mkLanguage "C#" [".cs"] "/*" "*/" "//" "";
  mkLanguage "Go" [".go"] "/*" "*/" "//" "";
  mkLanguage "HTML" [".html"; ".htm"] "" "" "" "";
  mkLanguage "Java" [".java"] "/*" "*/" "//" "";
  mkLanguage "Javascript" [".js"] "/*" "*/" "//" "";
  mkLanguage "JSON" [".json"] "" "" "" "";
  mkLanguage "Markdown" [".md"] "" "" "" "";
  mkLanguage "Perl" [".pl"] "/*" "*/" "//" "__END__";
  mkLanguage "PHP" [".php"] "/*" "*/" "//" "__halt_compiler()";
  mkLanguage "Python" [".py"; ".pyw"] "" "" "#" "";
  mkLanguage "RestructuredText" [".rst"] "" "" "" "";
  mkLanguage "RPGLE" [".rpgle"] "" "" "" "";
  mkLanguage "Ruby" [".rb"] "/*" "*/" "#" "__END__";
  mkLanguage "Rust" [".rs"] "/*" "*/" "//" "";
  mkLanguage "SQL" [".sql"] "/*" "*/" "" "";
  mkLanguage "TCL" [".tcl"] "" "" "#" "";
  mkLanguage "Text" [".txt"] "" "" "" "";
  mkLanguage "VB" [".vb"; ".mac"; ".frm"; ".frx"; ".bas"] "/*" "*/" "'" "";
  mkLanguage "XML" [".xml"; ".xss"; ".xsc"; ".xsd"; ".xsx"] "" "" "" ""
].

(** [ext_set[ext] = lang] for every extension of every language, in order:
    a later language overwrites an earlier one. *)
Definition buildExtensions (langs : list Language) : gmap string Language :=
  fold_left
    (fun ext_set lang =>
       fold_left (fun m ext => <[ext := lang]> m) (extension lang) ext_set)
    langs ∅.

Definition extensions : gmap string Language := buildExtensions languages.

(** [m[k]] of Go: the zero value when [k] is missing. *)
Definition index (m : gmap string Language) (k : string) : Language :=
  default zeroLanguage (m !! k).

(** States for scanning *)
Inductive State := NORMAL | BLOCK | END.

(** ** The outside world *)

(** A Go [error] value. *)
Inductive error := mkError (msg : string).

(** One successful [scanner.Scan()]: the line [scanner.Text()] returns, and
    what [scanner.Err()] returns at that point. *)
Record Token := {
  Text : string;
  ScanErr : option error
}.

(** What [os.Open(path)] returns: an error, or a file whose scanner delivers
    the given tokens before [Scan()] returns false. *)
Inductive OpenResult :=
| OpenError (e : error)
| Opened (tokens : list Token).

Definition FileSystem := string -> OpenResult.

(** A computation that returns or panics. *)
Inductive Result (A : Type) :=
| Ok (a : A)
| Panic (e : error).
Arguments Ok {A} a.
Arguments Panic {A} e.

(** ** [File.scan] *)

Definition setLang (file : File) (l : Language) : File :=
  {| path := path file; info := info file; lang := l;
     scanned := scanned file; lines := lines file;
     comments := comments file; blanks := blanks file; code := code file |}.

Definition setScanned (file : File) (b : bool) : File :=
  {| path := path file; info := info file; lang := lang file;
     scanned := b; lines := lines file;
     comments := comments file; blanks := blanks file; code := code file |}.

(** [file.lines++] *)
Definition incLines (file : File) : File :=
  {| path := path file; info := info file; lang := lang file;
     scanned := scanned file; lines := GoInt.incr (lines file);
     comments := comments file; blanks := blanks file; code := code file |}.

(** [file.comments++] *)
Definition incComments (file : File) : File :=
  {| path := path file; info := info file; lang := lang file;
     scanned := scanned file; lines := lines file;
     comments := GoInt.incr (comments file); blanks := blanks file;
     code := code file |}.

(** [file.blanks++] *)
Definition incBlanks (file : File) : File :=
  {| path := path file; info := info file; lang := lang file;
     scanned := scanned file; lines := lines file;
     comments := comments file; blanks := GoInt.incr (blanks file);
     code := code file |}.

(** [file.code++] *)
Definition incCode (file : File) : File :=
  {| path := path file; info := info file; lang := lang file;
     scanned := scanned file; lines := lines file;
     comments := comments file; blanks := blanks file;
     code := GoInt.incr (code file) |}.

(** [s != ""] *)
Definition nonEmpty (s : string) : bool := negb (String.eqb s "").

(** The [switch state] of the loop, run on a trimmed, non-empty [line]. *)
Definition classify (state : State) (file : File) (line : string)
    : State * File :=
  let l := lang file in
  match state with
  | NORMAL =>
      if HasPrefix line (comment l) && nonEmpty (comment l)
      then (state, incComments file)
      else if HasPrefix line (endmark l) && nonEmpty (endmark l)
      then (END, incComments file)
      else
        if nonEmpty (openblock l) && nonEmpty (closeblock l) then
          let spos := LastIndex line (openblock l) in
          let epos := LastIndex line (closeblock l) in
          if (spos >? epos) && (spos >? 1) then (BLOCK, incCode file)
          else if spos >? epos then (BLOCK, incComments file)
          else if (spos <? epos) && (spos >? -1)
          then (NORMAL, incComments file)
          else (state, incCode file)
        else (state, incCode file)
  | BLOCK =>
      let spos := LastIndex line (openblock l) in
      let epos := LastIndex line (closeblock l) in
      if (spos <? epos) && negb (epos =? -1)
      then (NORMAL, incComments file)
      else (state, incComments file)
  | END => (state, incComments file)
  end.

(** One turn of the loop on the line [line_orig]. *)
Definition scanLine (state : State) (file : File) (line_orig : string)
    : State * File :=
  let file := incLines file in
  let line := TrimSpace line_orig in
  if String.eqb line "" then (state, incBlanks file)
  else classify state file line.

(** [for scanner.Scan() { if err := scanner.Err(); err != nil { panic(err) }
    ... }] *)
Fixpoint scanLoop (tokens : list Token) (state : State) (file : File)
    : Result (State * File) :=
  match tokens with
  | [] => Ok (state, file)
  | t :: rest =>
      match ScanErr t with
      | Some err => Panic err
      | None =>
          let '(state', file') := scanLine state file (Text t) in
          scanLoop rest state' file'
      end
  end.

(** The loop on lines that all arrive without an error. *)
Fixpoint runLines (ls : list string) (state : State) (file : File)
    : State * File :=
  match ls with
  | [] => (state, file)
  | line_orig :: rest =>
      let '(state', file') := scanLine state file line_orig in
      runLines rest state' file'
  end.

Definition okToken (s : string) : Token := {| Text := s; ScanErr := None |}.

(** [TrimSpace(line_orig) != ""] *)
Definition nonBlank (line_orig : string) : bool :=
  nonEmpty (TrimSpace line_orig).

(** Scans a single file, recording the stats.  The package variable
    [extensions] is read through the argument [exts]: the program never
    assigns it, so every call of the program passes [extensions]. *)
Definition scan (exts : gmap string Language) (open : FileSystem)
    (file : File) : Result File :=
  let state := NORMAL in
  let file :=
    setLang file (index exts (ToLower (filepath.Ext (path file)))) in
  if String.eqb (name (lang file)) "" || (Size (info file) =? 0)
  then Ok (setScanned file false)
  else
    match open (path file) with
    | OpenError err => Panic err
    | Opened tokens =>
        match scanLoop tokens state file with
        | Panic err => Panic err
        | Ok (_, file) => Ok (setScanned file true)
        end
    end.

(** ** [walkFunc] and the walk that calls it *)

(** [File{path: path, info: info}] *)
Definition newFile (p : string) (i : FileInfo) : File :=
  {| path := p; info := i; lang := zeroLanguage; scanned := false;
     lines := 0; comments := 0; blanks := 0; code := 0 |}.

(** The [error] a [WalkFunc] returns: [nil] or [filepath.SkipDir]. *)
Inductive WalkError := WalkNil | SkipDir.

(** Create the files.  The global [files] is threaded through, the table
    is read through [exts] as in [scan]. *)
Definition walkFunc (exts : gmap string Language) (open : FileSystem)
    (files : list File) (p : string) (i : FileInfo)
    : Result (list File * WalkError) :=
  if IsDir i then
    if String.eqb p "." then Ok (files, WalkNil)
    else
      let name := Name i in
      if HasPrefix name "." then Ok (files, SkipDir)
      else if String.eqb name "__pycache__" then Ok (files, SkipDir)
      else Ok (files, WalkNil)
  else
    let ext := filepath.Ext p in
    match exts !! ext with
    | Some _ =>
        match scan exts open (newFile p i) with
        | Panic err => Panic err
        | Ok file => Ok ((files ++ [file])%list, WalkNil)
        end
    | None => Ok (files, WalkNil)
    end.

(** A file tree as [filepath.Walk] meets it: each node with the path and
    the [FileInfo] handed to the callback, a directory with its entries in
    the order they are visited. *)
#[local] Unset Elimination Schemes.
Inductive Node := MkNode (npath : string) (ninfo : FileInfo)
                         (entries : list Node).
#[local] Set Elimination Schemes.

Definition ninfoOf (n : Node) : FileInfo :=
  match n with MkNode _ i _ => i end.

Section WalkEntries.

Variable walkOne : Node -> list File -> Result (list File * WalkError).

(** The [for _, name := range names] loop of [walk]: [SkipDir] from a
    directory is swallowed, from a file it ends the loop. *)
Fixpoint walkEntries (es : list Node) (files : list File)
    : Result (list File * WalkError) :=
  match es with
  | [] => Ok (files, WalkNil)
  | e :: es' =>
      match walkOne e files with
      | Panic err => Panic err
      | Ok (files', WalkNil) => walkEntries es' files'
      | Ok (files', SkipDir) =>
          if IsDir (ninfoOf e) then walkEntries es' files'
          else Ok (files', SkipDir)
      end
  end.

End WalkEntries.

(** [walk] of [path/filepath]: the callback on the node, then, for a
    directory the callback did not skip, the entries in turn.  A panic
    unwinds through it. *)
Fixpoint walk (exts : gmap string Language) (open : FileSystem)
    (n : Node) (files : list File) : Result (list File * WalkError) :=
  match n with
  | MkNode p i entries =>
      if negb (IsDir i) then walkFunc exts open files p i
      else
        match walkFunc exts open files p i with
        | Panic err => Panic err
        | Ok (files1, SkipDir) => Ok (files1, SkipDir)
        | Ok (files1, WalkNil) => walkEntries (walk exts open) entries files1
        end
  end.

(** [filepath.Walk(ROOT, walkFunc)] of [main], started on the empty
    [files] with the table [extensions]. *)
Definition Walk (open : FileSystem) (root : Node) : Result (list File) :=
  match walk extensions open root [] with
  | Panic err => Panic err
  | Ok (files, _) => Ok files
  end.

(** ** The fixture of [codecount_test.go] *)

Module Fixture.

Definition dq : string := String (ascii_of_N 34) EmptyString.
Definition tab : string := String (ascii_of_N 9) EmptyString.

(** The lines of [test_files/php.php]. *)
Definition php_lines : list string := [
  "<?php";
  "class Mhistory extends CI_Model {";
  "";
  "    /*";
  "    *  Add a history record for sending the email";
  "    *";
  "    */";
  "    function create($ruleid, $jsondata)";
  "    {";
  "        $storedproc = " ++ dq;
  "            /* Notifier History create SQL */";
  "            INSERT INTO ALPHA.R50ALL.CI_HISTORY";
  "            (RULEID, JSONDATA)";
  "            VALUES(?, ?)" ++ dq ++ ";";
  "";
  "        $stmt = $this->db->query(";
  "            $storedproc,";
  "            array(";
  "                $ruleid,";
  "                str_replace(" ++ dq ++ "'" ++ dq ++ ", " ++ dq ++ "''"
    ++ dq ++ ", $jsondata)";
  "            )";
  "        );";
  "        return $stmt;";
  "";
  tab ++ "}";
  "}";
  "# Blank = 3, Comment = 5,  Code = 19, Total = 27"
]%string.

(** A file system that holds [php_lines] under every path. *)
Definition php_open : FileSystem := fun _ => Opened (map okToken php_lines).

Definition php_info : FileInfo :=
  {| Name := "php.php"; Size := 588; IsDir := false |}.

(** The record [check_scan] builds for it, scanned. *)
Definition php_record : File :=
  match scan extensions php_open (newFile "test_files/php.php" php_info)
  with
  | Ok f => f
  | Panic _ => newFile "test_files/php.php" php_info
  end.

(** A record of a C file about to be scanned. *)
Definition c_file : File :=
  setLang (newFile "main.c" {| Name := "main.c"; Size := 10;
                               IsDir := false |})
          (index extensions ".c").

(** The four counters of a record, as [check_scan] compares them. *)
Definition counts (r : Result File) : option (Z * Z * Z * Z) :=
  match r with
  | Ok f => Some (code f, lines f, comments f, blanks f)
  | Panic _ => None
  end.

End Fixture.

(** ** Inputs of the examples *)

Module Samples.

Definition regular (n : string) (size : Z) : FileInfo :=
  {| Name := n; Size := size; IsDir := false |}.

Definition directory (n : string) : FileInfo :=
  {| Name := n; Size := 4096; IsDir := true |}.









Definition ioerr : error := mkError "read a.go: input/output error".



(** [a.go] delivers one line and a second one along with a read error,
    every other file is read without an error. *)
Definition batch_read : FileSystem :=
  fun p =>
    if String.eqb p "a.go"
    then Opened [okToken "package main";
                 {| Text := "fu"; ScanErr := Some ioerr |}]
    else Opened [okToken "package main"].

End Samples.

(** ** Vocabulary of the statements *)


(** [lines == code + comments + blanks], as Go evaluates it on [int]. *)
Definition linesSum (file : File) : Prop :=
  lines file = GoInt.add (GoInt.add (code file) (comments file)) (blanks file).

(** The same sum in the integers, the counters being counts. *)
Definition exactSum (file : File) : Prop :=
  0 <= code file /\ 0 <= comments file /\ 0 <= blanks file
  /\ lines file = code file + comments file + blanks file.


(** The number of lines that are not blank. *)
Definition nonBlanks (ls : list string) : nat :=
  length (List.filter nonBlank ls).

(** The state after every line of [ls], starting from [state]. *)
Definition stateAfter (ls : list string) (state : State) (file : File)
    : State :=
  fst (runLines ls state file).

(** ** The sort interface of [Files]

    [sort.Sort] reaches the records through [Len], [Swap] and [Less]; an
    index outside the slice panics. *)

Definition indexError : error := mkError "index out of range".

(** [f[i]] for an [int] index. *)
Definition fileAt (f : list File) (i : Z) : option File :=
  if i <? 0 then None else f !! Z.to_nat i.

Definition Files_Len (f : list File) : Z := Z.of_nat (length f).

(** [f[i], f[j] = f[j], f[i]] *)
Definition Files_Swap (f : list File) (i j : Z) : Result (list File) :=
  match fileAt f i, fileAt f j with
  | Some a, Some b => Ok (<[Z.to_nat j := a]> (<[Z.to_nat i := b]> f))
  | _, _ => Panic indexError
  end.

(** [f[i].lines > f[j].lines] *)
Definition lessLines (a b : File) : bool := lines a >? lines b.

(** [f.Files[i].lang.name < f.Files[j].lang.name], the order of Go on
    strings being the lexical order of their bytes. *)
Definition lessLang (a b : File) : bool :=
  String.ltb (name (lang a)) (name (lang b)).

(** [f.Files[i].path < f.Files[j].path] *)
Definition lessPath (a b : File) : bool := String.ltb (path a) (path b).

(** The three [Less] methods, for [Files], [FileByLang], [FileByPath]. *)
Definition lessAt (less : File -> File -> bool) (f : list File) (i j : Z)
    : Result bool :=
  match fileAt f i, fileAt f j with
  | Some a, Some b => Ok (less a b)
  | _, _ => Panic indexError
  end.

Definition Files_Less := lessAt lessLines.
Definition FileByLang_Less := lessAt lessLang.
Definition FileByPath_Less := lessAt lessPath.

(** ** The totals of [main] *)

Record Totals := {
  file_count : Z;
  blank_count : Z;
  comment_count : Z;
  code_count : Z;
  line_count : Z
}.

Definition noTotals : Totals :=
  {| file_count := 0; blank_count := 0; comment_count := 0;
     code_count := 0; line_count := 0 |}.

(** One turn of the loop [for i := 0; i < len(files); i++] of [main]. *)
Definition totalFile (t : Totals) (file : File) : Totals :=
  if scanned file then
    {| file_count := GoInt.incr (file_count t);
       blank_count := GoInt.add (blank_count t) (blanks file);
       comment_count := GoInt.add (comment_count t) (comments file);
       code_count := GoInt.add (code_count t) (code file);
       line_count := GoInt.add (line_count t) (lines file) |}
  else t.

(** Total scanned files *)
Definition total (files : list File) : Totals :=
  fold_left totalFile files noTotals.

(** ** [reportDetail]

    Each [fmt.Printf] of the report is recorded by its arguments, a [Row];
    the flags [ARG_BYFILE] and [ARG_BYPATH] and the sorting function are
    arguments. *)

Record Row := {
  label : string;
  rcount : Z;
  rblanks : Z;
  rcomments : Z;
  rcode : Z;
  rlines : Z
}.

(** [s[0:n]] *)
Fixpoint strTake (n : nat) (s : string) : string :=
  match n, s with
  | S n', String c s' => String c (strTake n' s')
  | _, _ => EmptyString
  end.

(** [if len(name) > 29 { name = name[0:27] + ".." }] *)
Definition shortName (name : string) : string :=
  if len name >? 29 then (strTake 27 name ++ "..")%string else name.

(** [if len(path) > 29 { path = path[0:10] + "..." + path[len(path)-16:] }] *)
Definition shortPath (path : string) : string :=
  if len path >? 29
  then (strTake 10 path ++ "..."
        ++ strings.drop (String.length path - 16) path)%string
  else path.

(** The row of one file in the branch [*ARG_BYFILE]. *)
Definition fileRow (f : File) : Row :=
  {| label := shortName (Name (info f)); rcount := 1;
     rblanks := blanks f; rcomments := comments f;
     rcode := code f; rlines := lines f |}.

(** The loop of the branch [*ARG_BYFILE], on the sorted [files]. *)
Fixpoint fileRows (files : list File) : list Row :=
  match files with
  | [] => []
  | f :: rest =>
      if negb (scanned f) then fileRows rest
      else fileRow f :: fileRows rest
  end.

(** The variables [path] (or [lang]), [count], [blanks], [comments],
    [code], [lines] of the two grouping branches. *)
Record Group := {
  gkey : string;
  gcount : Z;
  gblanks : Z;
  gcomments : Z;
  gcode : Z;
  glines : Z
}.

Definition noGroup : Group :=
  {| gkey := ""; gcount := 0; gblanks := 0; gcomments := 0; gcode := 0;
     glines := 0 |}.

(** The row printed for a group under the label [lbl]. *)
Definition groupRow (lbl : string) (g : Group) : Row :=
  {| label := lbl; rcount := gcount g; rblanks := gblanks g;
     rcomments := gcomments g; rcode := gcode g; rlines := glines g |}.

(** [count = 1; blanks = files[i].blanks; ...] under the new key. *)
Definition startGroup (key : string) (f : File) : Group :=
  {| gkey := key; gcount := 1; gblanks := blanks f;
     gcomments := comments f; gcode := code f; glines := lines f |}.

(** [count++; blanks = files[i].blanks + blanks; ...] *)
Definition addToGroup (key : string) (f : File) (g : Group) : Group :=
  {| gkey := key; gcount := GoInt.incr (gcount g);
     gblanks := GoInt.add (blanks f) (gblanks g);
     gcomments := GoInt.add (comments f) (gcomments g);
     gcode := GoInt.add (code f) (gcode g);
     glines := GoInt.add (lines f) (glines g) |}.

(** The loop of the branches [*ARG_BYPATH] and by language, which differ in
    the key ([files[i].path] or [files[i].lang.name]) and in that the path
    printed inside the loop is shortened by [shorten]; the row after the
    loop prints the key as it is. *)
Fixpoint groupLoop (keyOf : File -> string) (shorten : string -> string)
    (files : list File) (g : Group) : list Row :=
  match files with
  | [] => [groupRow (gkey g) g]
  | f :: rest =>
      if negb (scanned f) then groupLoop keyOf shorten rest g
      else
        let key := if String.eqb (gkey g) "" then keyOf f else gkey g in
        if negb (String.eqb key (keyOf f)) then
          groupRow (shorten key) g
          :: groupLoop keyOf shorten rest (startGroup (keyOf f) f)
        else groupLoop keyOf shorten rest (addToGroup key f g)
  end.

(** Print the report.  [sortFiles less] stands for [sort.Sort] on the
    slice with the [Less] method [less]. *)
Definition reportDetail
    (sortFiles : (File -> File -> bool) -> list File -> list File)
    (byfile bypath : bool) (files : list File) : list Row :=
  if byfile then fileRows (sortFiles lessLines files)
  else if bypath
  then groupLoop path shortPath (sortFiles lessPath files) noGroup
  else groupLoop (fun f => name (lang f)) (fun s => s)
         (sortFiles lessLang files) noGroup.

(** An insertion sort, one of the functions [sortFiles] can stand for. *)
Fixpoint insertFile (less : File -> File -> bool) (x : File)
    (l : list File) : list File :=
  match l with
  | [] => [x]
  | y :: l' => if less y x then y :: insertFile less x l' else x :: l
  end.

Fixpoint insertionSort (less : File -> File -> bool) (l : list File)
    : list File :=
  match l with
  | [] => []
  | x :: l' => insertFile less x (insertionSort less l')
  end.

(** ** More inputs of the examples *)

Module Trees.

(** A project with a hidden directory, a file of an unknown type, an empty
    file and a file whose extension is in upper case. *)
Definition project : Node :=
  MkNode "." (Samples.directory ".")
    [ MkNode ".git" (Samples.directory ".git")
        [ MkNode ".git/hook.pl" (Samples.regular "hook.pl" 9) [] ];
      MkNode "README.md" (Samples.regular "README.md" 20) [];
      MkNode "empty.go" (Samples.regular "empty.go" 0) [];
      MkNode "src" (Samples.directory "src")
        [ MkNode "src/INDEX.PHP" (Samples.regular "INDEX.PHP" 12) [];
          MkNode "src/main.c" (Samples.regular "main.c" 40) [];
          MkNode "src/notes.xyz" (Samples.regular "notes.xyz" 5) [];
          MkNode "src/util.c" (Samples.regular "util.c" 25) [] ] ].

(** The lines of its files. *)
Definition project_open : FileSystem :=
  fun p =>
    if String.eqb p "README.md"
    then Opened (map okToken ["# Title"; ""; "text"])
    else if String.eqb p "src/main.c"
    then Opened (map okToken ["/* main"; " */"; ""; "int main() {";
                              "  return 0; // done"; "}"])
    else if String.eqb p "src/util.c"
    then Opened (map okToken ["// util"; "int f();"; ""])
    else Opened (map okToken ["x"]).

(** What the walk of [main] collects there. *)
Definition project_files : list File :=
  match Walk project_open project with
  | Ok files => files
  | Panic _ => []
  end.

(** The parent directory as the root of the walk. *)
Definition parent : Node :=
  MkNode ".." (Samples.directory "..")
    [ MkNode "../main.c" (Samples.regular "main.c" 40) [] ].

End Trees.

(** ** Vocabulary of the statements, continued *)

(** The rows of a report added up column by column, in [int]. *)
Definition sumRows (rows : list Row) : Totals :=
  fold_left
    (fun t r =>
       {| file_count := GoInt.add (file_count t) (rcount r);
          blank_count := GoInt.add (blank_count t) (rblanks r);
          comment_count := GoInt.add (comment_count t) (rcomments r);
          code_count := GoInt.add (code_count t) (rcode r);
          line_count := GoInt.add (line_count t) (rlines r) |})
    rows noTotals.

(** [lines == code + comments + blanks] on the totals. *)
Definition totalsSum (t : Totals) : Prop :=
  line_count t
  = GoInt.add (GoInt.add (code_count t) (comment_count t)) (blank_count t).

(** The number of blank lines. *)
Definition blankLines (ls : list string) : nat :=
  length (List.filter (fun s => negb (nonBlank s)) ls).

(** The records that were scanned. *)
Definition scannedFiles (files : list File) : list File :=
  List.filter scanned files.

(** The sum of a list of integers. *)
Definition sumZ (l : list Z) : Z := fold_right Z.add 0 l.

(** A directory that [walkFunc] does not enter. *)
Definition skippedDir (p : string) (i : FileInfo) : Prop :=
  IsDir i = true /\ p <> "."
  /\ (HasPrefix (Name i) "." = true \/ Name i = "__pycache__").

(** [files] grows at its end, by records [Q] holds of. *)
Definition grows (Q : File -> Prop) (files files' : list File) : Prop :=
  exists new, files' = (files ++ new)%list /\ Forall Q new.

(** A record as [walkFunc] leaves it in [files]. *)
Definition recorded (f : File) : Prop :=
  IsDir (info f) = false
  /\ extensions !! filepath.Ext (path f) = Some (lang f)
  /\ name (lang f) <> ""
  /\ (scanned f = true <-> Size (info f) <> 0)
  /\ linesSum f.

(** A column of the report, read off a record, a group and a row. *)
Record Column := {
  ofFile : File -> Z;
  ofGroup : Group -> Z;
  ofRow : Row -> Z
}.

Definition colCount : Column :=
  {| ofFile := fun _ => 1; ofGroup := gcount; ofRow := rcount |}.
Definition colBlanks : Column :=
  {| ofFile := blanks; ofGroup := gblanks; ofRow := rblanks |}.
Definition colComments : Column :=
  {| ofFile := comments; ofGroup := gcomments; ofRow := rcomments |}.
Definition colCode : Column :=
  {| ofFile := code; ofGroup := gcode; ofRow := rcode |}.
Definition colLines : Column :=
  {| ofFile := lines; ofGroup := glines; ofRow := rlines |}.

Definition columns : list Column :=
  [colCount; colBlanks; colComments; colCode; colLines].

(** The four counters of a record are values of [int]. *)
Definition countersInRange (f : File) : Prop :=
  GoInt.inRange (lines f) /\ GoInt.inRange (comments f)
  /\ GoInt.inRange (blanks f) /\ GoInt.inRange (code f).

(** The scanned records with the key [k]. *)
Definition scannedWith (keyOf : File -> string) (k : string)
    (files : list File) : list File :=
  List.filter (fun f => String.eqb (keyOf f) k) (scannedFiles files).

(** The rows printed under the label [k]. *)
Definition rowsWith (k : string) (rows : list Row) : list Row :=
  List.filter (fun r => String.eqb (label r) k) rows.

(** The figures of a row are those of the records [fs], added up in
    [int]. *)
Definition rowSums (r : Row) (fs : list File) : Prop :=
  rcount r = GoInt.wrap (Z.of_nat (length fs))
  /\ rblanks r = GoInt.wrap (sumZ (map blanks fs))
  /\ rcomments r = GoInt.wrap (sumZ (map comments fs))
  /\ rcode r = GoInt.wrap (sumZ (map code fs))
  /\ rlines r = GoInt.wrap (sumZ (map lines fs)).



(** Equality of integers up to the wrap-around of [int]. *)
Definition eqm (a b : Z) : Prop := a mod GoInt.modulus = b mod GoInt.modulus.

(** What [sort.Sort] asks of a [Less] method: a strict weak ordering. *)
Definition strictWeak (less : File -> File -> bool) : Prop :=
  (forall a, less a a = false)
  /\ (forall a b c, less a b = true -> less b c = true -> less a c = true)
  /\ (forall a b c, less a b = false -> less b c = false -> less a c = false).

(** What [sort.Sort] guarantees of its result: the same records, and no
    record less than the one before it. *)
Definition sortContract
    (sortFiles : (File -> File -> bool) -> list File -> list File) : Prop :=
  forall less l,
    Permutation (sortFiles less l) l
    /\ (strictWeak less ->
        Sorted (fun a b => less b a = false) (sortFiles less l)).

(** * Properties *)

(** ** Arithmetic of [int] *)

Module GoIntFacts.
Import GoInt.

Lemma wrap_inRange x : inRange (wrap x).
Proof.
  unfold inRange, wrap, minInt, maxInt, modulus.
  pose proof (Z.mod_pos_bound (x + 2 ^ 63) (2 ^ 64) ltac:(lia)). lia.
Qed.

Lemma wrap_small x : inRange x -> wrap x = x.
Proof.
  unfold inRange, wrap, minInt, maxInt, modulus. intros H.
  rewrite Z.mod_small by lia. lia.
Qed.

Lemma wrap_add_l a b : wrap (wrap a + b) = wrap (a + b).
Proof.
  unfold wrap, modulus. f_equal.
  replace ((a + 2 ^ 63) mod 2 ^ 64 - 2 ^ 63 + b + 2 ^ 63)
    with ((a + 2 ^ 63) mod 2 ^ 64 + b) by lia.
  rewrite Zplus_mod_idemp_l. f_equal. lia.
Qed.

Lemma wrap_add_r a b : wrap (a + wrap b) = wrap (a + b).
Proof. rewrite (Z.add_comm a (wrap b)), wrap_add_l. f_equal. lia. Qed.

Lemma incr_small x : minInt <= x < maxInt -> incr x = x + 1.
Proof.
  intros H. unfold incr, add. apply wrap_small.
  unfold inRange. lia.
Qed.

Lemma add_incr_r a b : add a (incr b) = incr (add a b).
Proof.
  unfold incr, add. rewrite wrap_add_r, wrap_add_l. f_equal. lia.
Qed.

Lemma add_incr_l a b : add (incr a) b = incr (add a b).
Proof.
  unfold incr, add. rewrite !wrap_add_l. f_equal. lia.
Qed.

(** [n] increments of [x]. *)
Lemma iter_incr (n : nat) x :
  Nat.iter n incr (wrap x) = wrap (x + Z.of_nat n).
Proof.
  induction n as [|n IH].
  - simpl. f_equal. lia.
  - rewrite Nat.iter_succ, IH. unfold incr, add.
    rewrite wrap_add_l. f_equal. lia.
Qed.

End GoIntFacts.

(** ** Facts on the string functions *)

Module stringsFacts.

Lemma eqb_empty s : String.eqb s "" = isEmpty s.
Proof. destruct s; reflexivity. Qed.

Lemma nonEmpty_true s : nonEmpty s = true <-> s <> "".
Proof.
  unfold nonEmpty. rewrite negb_true_iff, <- not_true_iff_false.
  rewrite String.eqb_eq. reflexivity.
Qed.

Lemma nonEmpty_false s : nonEmpty s = false <-> s = "".
Proof. unfold nonEmpty. rewrite negb_false_iff. apply String.eqb_eq. Qed.



(** [HasPrefix s p] holds exactly when [s] is [p] followed by a rest. *)
Lemma HasPrefix_spec s p :
  HasPrefix s p = true <-> exists rest, s = (p ++ rest)%string.
Proof.
  revert s. induction p as [|a p IH]; intros s; simpl.
  - split; [intros _; exists s; reflexivity | reflexivity].
  - destruct s as [|c s]; simpl.
    + split; [discriminate | intros [rest H]; discriminate].
    + rewrite andb_true_iff, Ascii.eqb_eq, IH. split.
      * intros [-> [rest ->]]. exists rest. reflexivity.
      * intros [rest H]. injection H as -> ->. eauto.
Qed.





End stringsFacts.

(** ** The loop of [scan] *)

Module scanFacts.
Import GoInt GoIntFacts stringsFacts.

(** Each line bumps [lines] and exactly one of the three counters. *)
Lemma scanLine_counts state file line_orig :
  forall state' file', scanLine state file line_orig = (state', file') ->
  file' = incBlanks (incLines file)
  \/ file' = incComments (incLines file)
  \/ file' = incCode (incLines file).
Proof.
  intros state' file'. unfold scanLine, classify.
  repeat case_match; intros [= <- <-]; auto.
Qed.

Lemma scanLine_lang state file line_orig :
  lang (snd (scanLine state file line_orig)) = lang file.
Proof.
  destruct (scanLine state file line_orig) as [state' file'] eqn:E.
  apply scanLine_counts in E as [-> | [-> | ->]]; reflexivity.
Qed.

Lemma runLines_app ls1 ls2 state file :
  runLines (ls1 ++ ls2) state file
  = runLines ls2 (fst (runLines ls1 state file))
                 (snd (runLines ls1 state file)).
Proof.
  revert state file. induction ls1 as [|l ls1 IH]; intros state file.
  - reflexivity.
  - simpl. destruct (scanLine state file l) as [state' file']. apply IH.
Qed.

Lemma runLines_lang ls state file :
  lang (snd (runLines ls state file)) = lang file.
Proof.
  revert state file. induction ls as [|l ls IH]; intros state file.
  - reflexivity.
  - simpl. pose proof (scanLine_lang state file l) as Hl.
    destruct (scanLine state file l) as [state' file']. simpl in Hl.
    rewrite IH. exact Hl.
Qed.

(** Without a read error the loop runs through every line. *)
Lemma scanLoop_okTokens ls state file :
  scanLoop (map okToken ls) state file = Ok (runLines ls state file).
Proof.
  revert state file. induction ls as [|l ls IH]; intros state file.
  - reflexivity.
  - simpl. destruct (scanLine state file l) as [state' file']. apply IH.
Qed.

(** The loop returns only when no token carried an error. *)
Lemma scanLoop_Ok_inv tokens state file r :
  scanLoop tokens state file = Ok r ->
  Forall (fun t => ScanErr t = None) tokens
  /\ r = runLines (map Text tokens) state file.
Proof.
  revert state file. induction tokens as [|t tokens IH]; intros state file.
  - simpl. intros [= <-]. split; [constructor | reflexivity].
  - simpl. destruct (ScanErr t) eqn:Et; [discriminate|].
    destruct (scanLine state file (Text t)) as [state' file'].
    intros H. apply IH in H as [Hall ->]. split; [|reflexivity].
    constructor; assumption.
Qed.


(** *** The sum of the counters *)

Lemma linesSum_step state file line_orig :
  linesSum file -> linesSum (snd (scanLine state file line_orig)).
Proof.
  unfold linesSum. intros H.
  destruct (scanLine state file line_orig) as [state' file'] eqn:E.
  apply scanLine_counts in E as [-> | [-> | ->]]; simpl; rewrite H;
    rewrite ?add_incr_r, ?add_incr_l; reflexivity.
Qed.

Lemma linesSum_runLines ls state file :
  linesSum file -> linesSum (snd (runLines ls state file)).
Proof.
  revert state file. induction ls as [|l ls IH]; intros state file H.
  - exact H.
  - simpl. pose proof (linesSum_step state file l H) as Hs.
    destruct (scanLine state file l) as [state' file']. apply IH, Hs.
Qed.

Lemma exactSum_step state file line_orig :
  exactSum file -> lines file < maxInt ->
  exactSum (snd (scanLine state file line_orig))
  /\ lines (snd (scanLine state file line_orig)) = lines file + 1.
Proof.
  unfold exactSum. intros (Hc & Hm & Hb & Hl) Hlt.
  destruct (scanLine state file line_orig) as [state' file'] eqn:E.
  unfold maxInt in Hlt.
  apply scanLine_counts in E as [-> | [-> | ->]]; simpl;
    rewrite !incr_small by (unfold minInt, maxInt; lia); lia.
Qed.

Lemma exactSum_runLines ls state file :
  exactSum file -> lines file + Z.of_nat (length ls) <= maxInt ->
  exactSum (snd (runLines ls state file))
  /\ lines (snd (runLines ls state file))
     = lines file + Z.of_nat (length ls).
Proof.
  revert state file. induction ls as [|l ls IH]; intros state file H Hle.
  - simpl. split; [exact H | lia].
  - simpl in *.
    destruct (exactSum_step state file l H ltac:(lia)) as [Hs Hl].
    destruct (scanLine state file l) as [state' file']. simpl in Hs, Hl.
    destruct (IH state' file' Hs ltac:(lia)) as [Hs' Hl'].
    split; [exact Hs' | lia].
Qed.

End scanFacts.

(** ** The claims on single lines *)

Import GoInt GoIntFacts stringsFacts scanFacts.

(** [TestScanPHP] of [codecount_test.go] passes on the model: the fixture
    has 19 code lines, 27 lines, 5 comment lines and 3 blank lines. *)
Example TestScanPHP :
  Fixture.counts
    (scan extensions Fixture.php_open
          (newFile "test_files/php.php" Fixture.php_info))
  = Some (19, 27, 5, 3).
Proof. vm_compute. reflexivity. Qed.

(** C1. Every record that [scan] returns with [scanned = true] satisfies
    [lines == code + comments + blanks], whatever the table (hence the
    language rule), the path and the lines delivered: as Go evaluates the
    sum on [int], and in the integers as long as the number of lines fits
    an [int]. *)
Theorem scan_lines_sum (exts : gmap string Language) (open : FileSystem)
    (p : string) (i : FileInfo) (f : File) :
  scan exts open (newFile p i) = Ok f ->
  scanned f = true ->
  linesSum f
  /\ (forall tokens, open p = Opened tokens ->
        Z.of_nat (length tokens) <= maxInt ->
        lines f = code f + comments f + blanks f
        /\ lines f = Z.of_nat (length tokens)).
Proof.
  unfold scan. cbn [path newFile].
  set (file0 := setLang _ _).
  destruct (_ || _); [intros [= <-] H; discriminate H|].
  change (path file0) with p.
  destruct (open p) as [err | tokens] eqn:Eo; [discriminate|].
  destruct (scanLoop tokens NORMAL file0) as [[st f'] | err] eqn:El;
    [|discriminate].
  intros [= <-] _. apply scanLoop_Ok_inv in El as [_ Hr].
  assert (Hf : f' = snd (runLines (map Text tokens) NORMAL file0))
    by (rewrite <- Hr; reflexivity).
  split.
  - unfold linesSum. cbn. rewrite Hf.
    apply (linesSum_runLines (map Text tokens) NORMAL file0). reflexivity.
  - intros tokens' [= <-] Hlen. cbn. rewrite Hf.
    destruct (exactSum_runLines (map Text tokens) NORMAL file0) as [Hs Hl].
    + unfold exactSum. cbn. lia.
    + rewrite length_map. cbn. lia.
    + rewrite length_map in Hl. cbn in Hl.
      destruct Hs as (_ & _ & _ & Hs). split; [exact Hs | exact Hl].
Qed.

Lemma scan_lines_sum_witness :
  linesSum Fixture.php_record
  /\ (forall tokens,
        Fixture.php_open "test_files/php.php" = Opened tokens ->
        Z.of_nat (length tokens) <= maxInt ->
        lines Fixture.php_record
        = code Fixture.php_record + comments Fixture.php_record
          + blanks Fixture.php_record
        /\ lines Fixture.php_record = Z.of_nat (length tokens)).
Proof.
  apply (scan_lines_sum extensions Fixture.php_open "test_files/php.php"
           Fixture.php_info Fixture.php_record).
  - vm_compute. reflexivity.
  - vm_compute. reflexivity.
Defined.



Lemma scanLine_nonblank state file line_orig :
  TrimSpace line_orig <> "" ->
  scanLine state file line_orig
  = classify state (incLines file) (TrimSpace line_orig).
Proof.
  intros Hne. unfold scanLine.
  destruct (String.eqb (TrimSpace line_orig) "") eqn:E; [|reflexivity].
  apply String.eqb_eq in E. contradiction.
Qed.





(** ** The END state *)

Lemma nonBlank_true line_orig :
  nonBlank line_orig = true <-> TrimSpace line_orig <> "".
Proof. apply nonEmpty_true. Qed.

Lemma nonBlanks_cons l ls :
  nonBlanks (l :: ls)
  = if nonBlank l then S (nonBlanks ls) else nonBlanks ls.
Proof. unfold nonBlanks. simpl. destruct (nonBlank l); reflexivity. Qed.



(** The only step into END from another state: a line of state NORMAL that
    is not blank, is not taken as a line comment, and starts with the
    non-empty end marker. *)
Lemma scanLine_enters_END state file line_orig file' :
  scanLine state file line_orig = (END, file') ->
  state = END
  \/ (state = NORMAL
      /\ TrimSpace line_orig <> ""
      /\ HasPrefix (TrimSpace line_orig) (endmark (lang file)) = true
      /\ endmark (lang file) <> ""
      /\ file' = incComments (incLines file)).
Proof.
  intros H. destruct state; [right | exfalso | left; reflexivity].
  - revert H. unfold scanLine.
    destruct (String.eqb (TrimSpace line_orig) "") eqn:Eb; [discriminate|].
    apply String.eqb_neq in Eb. unfold classify. cbn [lang incLines].
    destruct (HasPrefix _ (comment _) && _); [discriminate|].
    destruct (HasPrefix _ (endmark _) && _) eqn:Ee.
    + intros [= <-]. apply andb_true_iff in Ee as [Hp Hn].
      apply nonEmpty_true in Hn. repeat split; assumption.
    + repeat case_match; discriminate.
  - revert H. unfold scanLine, classify. repeat case_match; discriminate.
Qed.



(** ** Rules without markers *)



(** What [scan] returns when the file is opened and read without error. *)
Lemma scan_okTokens exts open p i l ls :
  exts !! ToLower (filepath.Ext p) = Some l ->
  open p = Opened (map okToken ls) ->
  scan exts open (newFile p i)
  = if String.eqb (name l) "" || (Size i =? 0)
    then Ok (setScanned (setLang (newFile p i) l) false)
    else Ok (setScanned
               (snd (runLines ls NORMAL (setLang (newFile p i) l))) true).
Proof.
  intros Hl Ho. unfold scan, index. cbn [path newFile]. rewrite Hl.
  change (default zeroLanguage (Some l)) with l.
  set (file0 := setLang _ l).
  change (lang file0) with l. change (info file0) with i.
  change (path file0) with p.
  destruct (_ || _); [reflexivity|].
  rewrite Ho, scanLoop_okTokens.
  destruct (runLines ls NORMAL file0) as [st f]. reflexivity.
Qed.



(** ** Files that are skipped *)

(** C8. For a file whose lower-cased extension has no entry in the table,
    and for a file of size zero, [scan] returns the record with
    [scanned = false] and the four counters at zero; it does so whatever
    opening or reading the file would give, the file being never opened. *)
Theorem unknown_or_empty_not_scanned (exts : gmap string Language)
    (open : FileSystem) (p : string) (i : FileInfo) :
  exts !! ToLower (filepath.Ext p) = None \/ Size i = 0 ->
  exists f,
    scan exts open (newFile p i) = Ok f
    /\ scanned f = false
    /\ lines f = 0 /\ code f = 0 /\ comments f = 0 /\ blanks f = 0
    /\ forall open', scan exts open' (newFile p i) = Ok f.
Proof.
  intros H.
  assert (Hskip :
    String.eqb (name (index exts (ToLower (filepath.Ext p)))) ""
    || (Size i =? 0) = true).
  { destruct H as [Hnone | Hsize].
    - unfold index. rewrite Hnone. reflexivity.
    - rewrite Hsize. apply orb_true_r. }
  exists (setScanned
            (setLang (newFile p i) (index exts (ToLower (filepath.Ext p))))
            false).
  assert (Hscan : forall o, scan exts o (newFile p i)
                  = Ok (setScanned
                          (setLang (newFile p i)
                             (index exts (ToLower (filepath.Ext p))))
                          false)).
  { intros o. unfold scan. cbn [path newFile lang setLang info].
    rewrite Hskip. reflexivity. }
  split; [apply Hscan|]. repeat split. exact Hscan.
Qed.

(** A file with an extension outside the table. *)
Lemma unknown_or_empty_not_scanned_witness :
  exists f,
    scan extensions Fixture.php_open
         (newFile "notes.xyz" (Samples.regular "notes.xyz" 100)) = Ok f
    /\ scanned f = false
    /\ lines f = 0 /\ code f = 0 /\ comments f = 0 /\ blanks f = 0
    /\ forall open',
         scan extensions open'
              (newFile "notes.xyz" (Samples.regular "notes.xyz" 100)) = Ok f.
Proof.
  apply (unknown_or_empty_not_scanned extensions Fixture.php_open
           "notes.xyz" (Samples.regular "notes.xyz" 100)).
  left. vm_compute. reflexivity.
Defined.

(** ** The end marker on the first line *)



(** The three rules of the table that have an end marker are left as they
    are by trimming and do not start with their line-comment marker. *)
Lemma table_endmarks_meet_conditions :
  Forall (fun l =>
            endmark l <> "" ->
            TrimSpace (endmark l) = endmark l
            /\ HasPrefix (endmark l) (comment l) && nonEmpty (comment l)
               = false)
         languages.
Proof.
  unfold languages.
  repeat (apply List.Forall_cons; [intros _; split; reflexivity|]).
  apply List.Forall_nil.
Qed.


(** ** Read failures *)





(** ** The case of the extension *)

(** [scan] resolves the rule from the lower-cased extension. *)
Lemma scan_lang_lowercased exts open file f :
  scan exts open file = Ok f ->
  lang f = index exts (ToLower (filepath.Ext (path file))).
Proof.
  unfold scan. set (file0 := setLang file _).
  destruct (_ || _); [intros [= <-]; reflexivity|].
  destruct (open (path file0)); [discriminate|].
  destruct (scanLoop tokens NORMAL file0) as [[st f'] | err] eqn:El;
    [|discriminate].
  intros [= <-]. apply scanLoop_Ok_inv in El as [_ Hr].
  cbn [lang setScanned].
  replace f' with (snd (runLines (map Text tokens) NORMAL file0))
    by (rewrite <- Hr; reflexivity).
  rewrite runLines_lang. reflexivity.
Qed.

(** C7 on the code: [scan] lower-cases the extension, so the record of
    [INDEX.PHP] is that of a PHP file, scanned; [walkFunc] looks the
    extension up as it is written, finds nothing for [.PHP], and neither
    scans the file nor records it, where [index.php] is scanned and
    recorded. *)
Lemma walkFunc_skips_upper_case_extension :
  (exists f,
     scan extensions Fixture.php_open
          (newFile "INDEX.PHP" (Samples.regular "INDEX.PHP" 588)) = Ok f
     /\ scanned f = true
     /\ lang f = index extensions ".php")
  /\ walkFunc extensions Fixture.php_open [] "INDEX.PHP"
       (Samples.regular "INDEX.PHP" 588)
     = Ok ([], WalkNil)
  /\ (exists f,
        walkFunc extensions Fixture.php_open [] "index.php"
          (Samples.regular "index.php" 588)
        = Ok ([f], WalkNil)
        /\ scanned f = true
        /\ lang f = index extensions ".php").
Proof.
  split; [|split].
  - eexists. split; [vm_compute; reflexivity|]. split; reflexivity.
  - vm_compute. reflexivity.
  - eexists. split; [vm_compute; reflexivity|]. split; reflexivity.
Qed.

(** * Further properties of the code *)

(** ** Arithmetic modulo [2 ^ 64] *)

Module GoIntModular.
Import GoInt GoIntFacts.

#[export] Instance eqm_equiv : Equivalence eqm.
Proof.
  unfold eqm. split.
  - intros a. reflexivity.
  - intros a b H. symmetry. exact H.
  - intros a b c H1 H2. rewrite H1. exact H2.
Qed.

#[export] Instance add_eqm : Proper (eqm ==> eqm ==> eqm) Z.add.
Proof.
  unfold eqm. intros a a' Ha b b' Hb.
  rewrite (Z.add_mod a b), (Z.add_mod a' b') by (unfold modulus; lia).
  rewrite Ha, Hb. reflexivity.
Qed.

Lemma wrap_eqm x : eqm (wrap x) x.
Proof.
  unfold eqm, wrap.
  replace ((x + 2 ^ 63) mod modulus - 2 ^ 63)
    with ((x + 2 ^ 63) mod modulus + - 2 ^ 63) by lia.
  rewrite Zplus_mod_idemp_l. f_equal. lia.
Qed.

#[export] Instance wrap_proper : Proper (eqm ==> eq) wrap.
Proof.
  intros a b H. unfold wrap. f_equal.
  assert (H' : eqm (a + 2 ^ 63) (b + 2 ^ 63)) by (rewrite H; reflexivity).
  exact H'.
Qed.

Lemma add_eqm_sum a b : eqm (add a b) (a + b).
Proof. apply wrap_eqm. Qed.

Lemma incr_eqm_succ a : eqm (incr a) (a + 1).
Proof. apply wrap_eqm. Qed.

(** Two integers in range that agree up to wrap-around are equal. *)
Lemma eqm_inRange a b : inRange a -> inRange b -> eqm a b -> a = b.
Proof.
  intros Ha Hb H. rewrite <- (wrap_small a Ha), <- (wrap_small b Hb).
  apply wrap_proper, H.
Qed.

End GoIntModular.

(** ** The extension table *)

Module tableFacts.

Lemma insertAll_lookup (lang : Language) (exts : list string)
    (m : gmap string Language) (k : string) :
  fold_left (fun m ext => <[ext := lang]> m) exts m !! k
  = if bool_decide (k ∈ exts) then Some lang else m !! k.
Proof.
  revert m. induction exts as [|e exts IH]; intros m; cbn [fold_left].
  - reflexivity.
  - rewrite IH. destruct (bool_decide_reflect (k ∈ exts)) as [Hin | Hnin].
    + rewrite bool_decide_eq_true_2 by (right; exact Hin). reflexivity.
    + destruct (decide (k = e)) as [-> | Hne].
      * rewrite bool_decide_eq_true_2 by left. apply lookup_insert_eq.
      * rewrite lookup_insert_ne by congruence.
        rewrite bool_decide_eq_false_2; [reflexivity|].
        intros Hin. apply elem_of_cons in Hin as [? | ?]; contradiction.
Qed.

Lemma build_app (langs1 langs2 : list Language) :
  buildExtensions (langs1 ++ langs2)
  = fold_left
      (fun ext_set lang =>
         fold_left (fun m ext => <[ext := lang]> m) (extension lang) ext_set)
      langs2 (buildExtensions langs1).
Proof. unfold buildExtensions. apply fold_left_app. Qed.

Lemma build_snoc_lookup (langs : list Language) (l : Language) (k : string) :
  buildExtensions (langs ++ [l]) !! k
  = if bool_decide (k ∈ extension l) then Some l
    else buildExtensions langs !! k.
Proof. rewrite build_app. cbn [fold_left]. apply insertAll_lookup. Qed.

Lemma build_lookup_spec (langs : list Language) (ext : string) :
  (buildExtensions langs !! ext = None
   <-> forall l, l ∈ langs -> ext ∉ extension l)
  /\ (forall l, buildExtensions langs !! ext = Some l ->
        l ∈ langs /\ ext ∈ extension l).
Proof.
  induction langs as [|l0 langs [IHn IHs]] using rev_ind.
  - split.
    + split; [intros _ l Hl; inversion Hl | intros _; reflexivity].
    + intros l H. discriminate.
  - rewrite build_snoc_lookup.
    destruct (bool_decide_reflect (ext ∈ extension l0)) as [Hin | Hnin].
    + split.
      * split; [discriminate|]. intros H. exfalso.
        apply (H l0); [apply elem_of_app; right; left | exact Hin].
      * intros l [= <-]. split; [apply elem_of_app; right; left | exact Hin].
    + split.
      * rewrite IHn. split.
        -- intros H l Hl. apply elem_of_app in Hl as [Hl | Hl].
           ++ apply H, Hl.
           ++ apply list_elem_of_singleton in Hl. subst l. exact Hnin.
        -- intros H l Hl. apply H. apply elem_of_app. left. exact Hl.
      * intros l Hl. apply IHs in Hl as [Hl Hext]. split; [|exact Hext].
        apply elem_of_app. left. exact Hl.
Qed.

(** Every key of the shipped table is in lower case and leads to a rule
    with a name. *)
Lemma extensions_keys (ext : string) (l : Language) :
  extensions !! ext = Some l -> ToLower ext = ext /\ name l <> "".
Proof.
  intros H. apply build_lookup_spec in H as [Hl He].
  assert (Hall : Forall (fun l => name l <> ""
                           /\ Forall (fun e => ToLower e = e) (extension l))
                        languages).
  { unfold languages.
    repeat (apply List.Forall_cons;
            [split; [discriminate | repeat constructor]|]).
    apply List.Forall_nil. }
  rewrite List.Forall_forall in Hall.
  apply list_elem_of_In in Hl. destruct (Hall l Hl) as [Hn Hk].
  rewrite List.Forall_forall in Hk. apply list_elem_of_In in He.
  split; [apply Hk, He | exact Hn].
Qed.

End tableFacts.

(** X1. The table is built with the last write winning: an extension
    resolves to the last language of the list that names it. *)
Theorem buildExtensions_last_wins (before after : list Language)
    (l : Language) (ext : string) :
  ext ∈ extension l ->
  (forall l', l' ∈ after -> ext ∉ extension l') ->
  buildExtensions (before ++ l :: after) !! ext = Some l.
Proof.
  intros Hin. revert before.
  induction after as [|l' after IH] using rev_ind; intros before Hafter.
  - rewrite tableFacts.build_snoc_lookup.
    rewrite bool_decide_eq_true_2 by exact Hin. reflexivity.
  - replace (before ++ l :: after ++ [l'])%list
      with ((before ++ l :: after) ++ [l'])%list
      by (rewrite <- app_assoc; reflexivity).
    rewrite tableFacts.build_snoc_lookup.
    rewrite bool_decide_eq_false_2.
    + apply IH. intros l0 H0. apply Hafter.
      apply elem_of_app. left. exact H0.
    + apply Hafter. apply elem_of_app. right. left.
Qed.

(** Two rules that both name [.h]: the later one is found. *)
Lemma buildExtensions_last_wins_witness :
  buildExtensions
    ([mkLanguage "C" [".c"; ".h"] "/*" "*/" "//" ""]
     ++ mkLanguage "C++" [".cpp"; ".h"] "/*" "*/" "//" ""
     :: [mkLanguage "Go" [".go"] "/*" "*/" "//" ""]) !! ".h"
  = Some (mkLanguage "C++" [".cpp"; ".h"] "/*" "*/" "//" "").
Proof.
  apply (buildExtensions_last_wins
           [mkLanguage "C" [".c"; ".h"] "/*" "*/" "//" ""]
           [mkLanguage "Go" [".go"] "/*" "*/" "//" ""]
           (mkLanguage "C++" [".cpp"; ".h"] "/*" "*/" "//" "") ".h").
  - right. left.
  - intros l' Hl'. apply list_elem_of_singleton in Hl'. subst l'.
    cbn. intros H. apply list_elem_of_singleton in H. discriminate.
Defined.

(** X2. An extension has an entry in the table exactly when some language
    of the list names it, and the entry is one of the languages that do. *)
Theorem buildExtensions_lookup (langs : list Language) (ext : string) :
  (buildExtensions langs !! ext = None
   <-> forall l, l ∈ langs -> ext ∉ extension l)
  /\ (forall l, buildExtensions langs !! ext = Some l ->
        l ∈ langs /\ ext ∈ extension l).
Proof. exact (tableFacts.build_lookup_spec langs ext). Qed.

(** ** More on single lines *)





(** ** States that are never entered *)

(** One line does not lead to END under a rule without an end marker, nor
    to BLOCK under a rule that lacks a block marker. *)
Lemma scanLine_state_closed state file line_orig :
  (endmark (lang file) = "" -> state <> END ->
   fst (scanLine state file line_orig) <> END)
  /\ (openblock (lang file) = "" \/ closeblock (lang file) = "" ->
      state <> BLOCK ->
      fst (scanLine state file line_orig) <> BLOCK).
Proof.
  split.
  - intros He Hst.
    destruct (scanLine state file line_orig) as [st' f'] eqn:E. cbn.
    intros ->. apply scanLine_enters_END in E
      as [-> | (_ & _ & _ & Hne & _)]; contradiction.
  - intros Hb Hst. unfold scanLine, classify. cbn [lang incLines].
    assert (Hn : nonEmpty (openblock (lang file))
                 && nonEmpty (closeblock (lang file)) = false).
    { destruct Hb as [-> | ->]; [reflexivity | apply andb_false_r]. }
    rewrite Hn.
    destruct state; [|contradiction|]; repeat case_match; cbn; congruence.
Qed.

Lemma runLines_state_closed ls file state :
  (endmark (lang file) = "" -> state <> END ->
   fst (runLines ls state file) <> END)
  /\ (openblock (lang file) = "" \/ closeblock (lang file) = "" ->
      state <> BLOCK -> fst (runLines ls state file) <> BLOCK).
Proof.
  revert file state. induction ls as [|l ls IH]; intros file state.
  - split; intros _ H; exact H.
  - cbn [runLines].
    pose proof (scanLine_state_closed state file l) as [H1 H2].
    pose proof (scanLine_lang state file l) as Hl.
    destruct (scanLine state file l) as [st' f']. cbn in H1, H2, Hl.
    destruct (IH f' st') as [I1 I2]. rewrite Hl in I1, I2.
    split.
    + intros He Hst. apply I1; [exact He | apply H1; assumption].
    + intros Hb Hst. apply I2; [exact Hb | apply H2; assumption].
Qed.

(** X5. Under a rule without an end marker the scanner is never in state
    END, at any point of any file. *)
Theorem end_unreachable_without_endmark (file : File) (ls : list string) :
  endmark (lang file) = "" ->
  stateAfter ls NORMAL file <> END.
Proof.
  intros He. unfold stateAfter.
  apply (runLines_state_closed ls file NORMAL); [exact He | discriminate].
Qed.

(** A C file in which the end marker of Perl occurs. *)
Lemma end_unreachable_without_endmark_witness :
  stateAfter ["int x;"; "__END__"; "int y;"] NORMAL Fixture.c_file <> END.
Proof.
  apply (end_unreachable_without_endmark Fixture.c_file
           ["int x;"; "__END__"; "int y;"]).
  reflexivity.
Defined.

(** X6. Under a rule that lacks one of the two block markers the scanner is
    never in state BLOCK, at any point of any file. *)
Theorem block_unreachable_without_markers (file : File)
    (ls : list string) :
  openblock (lang file) = "" \/ closeblock (lang file) = "" ->
  stateAfter ls NORMAL file <> BLOCK.
Proof.
  intros Hb. unfold stateAfter.
  apply (runLines_state_closed ls file NORMAL); [exact Hb | discriminate].
Qed.

(** A Python file with the open marker of C in it. *)
Lemma block_unreachable_without_markers_witness :
  stateAfter ["x = 1 /* y"; "z = 2"] NORMAL
    (setLang Fixture.c_file (index extensions ".py")) <> BLOCK.
Proof.
  apply (block_unreachable_without_markers
           (setLang Fixture.c_file (index extensions ".py"))
           ["x = 1 /* y"; "z = 2"]).
  left. reflexivity.
Defined.

(** ** The counters of a whole file *)

Lemma nonBlank_false line_orig :
  nonBlank line_orig = false <-> TrimSpace line_orig = "".
Proof. apply nonEmpty_false. Qed.

(** A blank line bumps [blanks]; any other line bumps [comments] or
    [code]. *)
Lemma scanLine_kind state file line_orig state' file' :
  scanLine state file line_orig = (state', file') ->
  if nonBlank line_orig
  then file' = incComments (incLines file) \/ file' = incCode (incLines file)
  else file' = incBlanks (incLines file).
Proof.
  destruct (nonBlank line_orig) eqn:E.
  - apply nonBlank_true in E. rewrite scanLine_nonblank by exact E.
    unfold classify. repeat case_match; intros [= <- <-]; auto.
  - apply nonBlank_false in E. unfold scanLine. rewrite E. cbn.
    intros [= <- <-]. reflexivity.
Qed.

Lemma blankLines_cons l ls :
  blankLines (l :: ls)
  = if nonBlank l then blankLines ls else S (blankLines ls).
Proof. unfold blankLines. simpl. destruct (nonBlank l); reflexivity. Qed.

Lemma runLines_counters ls state file :
  lines (snd (runLines ls state file))
  = Nat.iter (length ls) incr (lines file)
  /\ blanks (snd (runLines ls state file))
     = Nat.iter (blankLines ls) incr (blanks file)
  /\ add (code (snd (runLines ls state file)))
         (comments (snd (runLines ls state file)))
     = Nat.iter (nonBlanks ls) incr (add (code file) (comments file)).
Proof.
  revert state file. induction ls as [|l ls IH]; intros state file.
  - repeat split.
  - cbn [runLines length]. rewrite blankLines_cons, nonBlanks_cons.
    destruct (scanLine state file l) as [st' f'] eqn:E.
    apply scanLine_kind in E. destruct (IH st' f') as (H1 & H2 & H3).
    rewrite H1, H2, H3.
    destruct (nonBlank l); [destruct E as [-> | ->] | subst f'];
      rewrite !Nat.iter_succ_r;
      cbn [lines blanks code comments incLines incComments incCode
           incBlanks];
      rewrite ?add_incr_l, ?add_incr_r; repeat split.
Qed.

Lemma iter_incr_zero (n : nat) : Nat.iter n incr 0 = wrap (Z.of_nat n).
Proof. exact (iter_incr n 0). Qed.

(** X7. For a file that is read to its end without an error, [lines] is the
    number of lines, [blanks] the number of lines that trim to the empty
    string, and [code + comments] the number of the other lines: no line
    is counted twice or left out (all three in [int]). *)
Theorem scan_counts_every_line (exts : gmap string Language)
    (open : FileSystem) (p : string) (i : FileInfo) (l : Language)
    (ls : list string) :
  exts !! ToLower (filepath.Ext p) = Some l ->
  name l <> "" -> Size i <> 0 ->
  open p = Opened (map okToken ls) ->
  exists f,
    scan exts open (newFile p i) = Ok f
    /\ scanned f = true
    /\ lines f = wrap (Z.of_nat (length ls))
    /\ blanks f = wrap (Z.of_nat (blankLines ls))
    /\ add (code f) (comments f) = wrap (Z.of_nat (nonBlanks ls)).
Proof.
  intros Hl Hname Hsize Ho.
  rewrite (scan_okTokens exts open p i l ls Hl Ho).
  apply String.eqb_neq in Hname. apply Z.eqb_neq in Hsize.
  rewrite Hname, Hsize. cbn [orb].
  destruct (runLines_counters ls NORMAL (setLang (newFile p i) l))
    as (H1 & H2 & H3).
  eexists. split; [reflexivity|]. cbn.
  rewrite H1, H2, H3. cbn. rewrite !iter_incr_zero. repeat split.
Qed.

(** The fixture: 27 lines, 3 of them blank. *)
Lemma scan_counts_every_line_witness :
  exists f,
    scan extensions Fixture.php_open
         (newFile "test_files/php.php" Fixture.php_info) = Ok f
    /\ scanned f = true
    /\ lines f = wrap (Z.of_nat (length Fixture.php_lines))
    /\ blanks f = wrap (Z.of_nat (blankLines Fixture.php_lines))
    /\ add (code f) (comments f)
       = wrap (Z.of_nat (nonBlanks Fixture.php_lines)).
Proof.
  apply (scan_counts_every_line extensions Fixture.php_open
           "test_files/php.php" Fixture.php_info (index extensions ".php")
           Fixture.php_lines).
  - vm_compute. reflexivity.
  - discriminate.
  - discriminate.
  - reflexivity.
Defined.

(** ** When [scan] panics *)

Lemma scanLoop_Panic_inv tokens state file err :
  scanLoop tokens state file = Panic err ->
  exists pre t post,
    tokens = (pre ++ t :: post)%list
    /\ Forall (fun t => ScanErr t = None) pre
    /\ ScanErr t = Some err.
Proof.
  revert state file. induction tokens as [|t tokens IH]; intros state file.
  - discriminate.
  - cbn [scanLoop]. destruct (ScanErr t) as [e|] eqn:Et.
    + intros [= ->]. exists [], t, tokens. repeat split; [constructor|exact Et].
    + destruct (scanLine state file (Text t)) as [st' f'].
      intros H. apply IH in H as (pre & t' & post & -> & Hpre & Ht').
      exists (t :: pre), t', post. repeat split; [|exact Ht'].
      constructor; assumption.
Qed.

(** X8. [scan] panics only on a failure of the file it reads: the rule of
    the file was found, the file is not empty, and either it could not be
    opened or one of its lines came with a read error, the first such error
    being the one the panic carries.  A file that is skipped never makes
    [scan] panic. *)
Theorem scan_panics_only_on_read_failure (exts : gmap string Language)
    (open : FileSystem) (p : string) (i : FileInfo) (err : error) :
  scan exts open (newFile p i) = Panic err ->
  name (index exts (ToLower (filepath.Ext p))) <> ""
  /\ Size i <> 0
  /\ (open p = OpenError err
      \/ exists pre t post,
           open p = Opened (pre ++ t :: post)
           /\ Forall (fun t => ScanErr t = None) pre
           /\ ScanErr t = Some err).
Proof.
  unfold scan. cbn [path newFile].
  set (file0 := setLang _ _).
  change (lang file0) with (index exts (ToLower (filepath.Ext p))).
  change (info file0) with i. change (path file0) with p.
  destruct (String.eqb _ "") eqn:En; [discriminate|].
  destruct (Size i =? 0) eqn:Es; [discriminate|]. cbn [orb].
  apply String.eqb_neq in En. apply Z.eqb_neq in Es.
  destruct (open p) as [e | tokens] eqn:Eo.
  - intros [= ->]. repeat split; try assumption. left. reflexivity.
  - destruct (scanLoop tokens NORMAL file0) as [[st f] | e] eqn:El;
      [discriminate|].
    intros [= ->]. repeat split; try assumption. right.
    apply scanLoop_Panic_inv in El as (pre & t & post & -> & Hpre & Ht).
    exists pre, t, post. repeat split; assumption.
Qed.

(** [a.go] of [Samples.batch_read] delivers its second line with an
    error. *)
Lemma scan_panics_only_on_read_failure_witness :
  name (index extensions (ToLower (filepath.Ext "a.go"))) <> ""
  /\ Size (Samples.regular "a.go" 13) <> 0
  /\ (Samples.batch_read "a.go" = OpenError Samples.ioerr
      \/ exists pre t post,
           Samples.batch_read "a.go" = Opened (pre ++ t :: post)
           /\ Forall (fun t => ScanErr t = None) pre
           /\ ScanErr t = Some Samples.ioerr).
Proof.
  apply (scan_panics_only_on_read_failure extensions Samples.batch_read
           "a.go" (Samples.regular "a.go" 13) Samples.ioerr).
  vm_compute. reflexivity.
Defined.

(** ** The walk *)

Module walkFacts.

(** Induction on a tree, the entries of a directory first. *)
Lemma Node_forall_ind (P : Node -> Prop) :
  (forall p i es, Forall P es -> P (MkNode p i es)) ->
  forall n, P n.
Proof.
  intros H. fix IH 1. intros [p i es]. apply H.
  induction es as [|e es IHes]; constructor; [apply IH | exact IHes].
Qed.

(** The loop over a list of entries, cut in two. *)
Lemma walkEntries_split walkOne before rest files :
  walkEntries walkOne (before ++ rest) files
  = match walkEntries walkOne before files with
    | Ok (files1, WalkNil) => walkEntries walkOne rest files1
    | r => r
    end.
Proof.
  revert files. induction before as [|e before IH]; intros files; cbn.
  - reflexivity.
  - destruct (walkOne e files) as [[files' [|]] | err];
      [apply IH | | reflexivity].
    destruct (IsDir (ninfoOf e)); [apply IH | reflexivity].
Qed.

(** [scan] leaves the path and the file info of the record alone. *)
Lemma runLines_path_info ls state file :
  path (snd (runLines ls state file)) = path file
  /\ info (snd (runLines ls state file)) = info file.
Proof.
  revert state file. induction ls as [|l ls IH]; intros state file.
  - split; reflexivity.
  - cbn [runLines].
    destruct (scanLine state file l) as [st' f'] eqn:E.
    apply scanLine_counts in E. destruct (IH st' f') as [-> ->].
    destruct E as [-> | [-> | ->]]; split; reflexivity.
Qed.

(** The record [scan] returns, for each way it returns. *)
Lemma scan_Ok_inv exts open file f :
  scan exts open file = Ok f ->
  let file0 :=
    setLang file (index exts (ToLower (filepath.Ext (path file)))) in
  (f = setScanned file0 false
   /\ (name (lang file0) = "" \/ Size (info file) = 0))
  \/ (name (lang file0) <> "" /\ Size (info file) <> 0
      /\ exists tokens,
           open (path file) = Opened tokens
           /\ f = setScanned
                    (snd (runLines (map Text tokens) NORMAL file0)) true).
Proof.
  unfold scan. set (file0 := setLang file _). cbn zeta.
  change (info file0) with (info file). change (path file0) with (path file).
  destruct (String.eqb (name (lang file0)) "") eqn:En.
  - intros [= <-]. left. apply String.eqb_eq in En. auto.
  - destruct (Size (info file) =? 0) eqn:Es; cbn [orb].
    + intros [= <-]. left. apply Z.eqb_eq in Es. auto.
    + apply String.eqb_neq in En. apply Z.eqb_neq in Es.
      destruct (open (path file)) as [e | tokens]; [discriminate|].
      destruct (scanLoop tokens NORMAL file0) as [[st f'] | e] eqn:El;
        [|discriminate].
      intros [= <-]. right. repeat split; try assumption.
      exists tokens. split; [reflexivity|].
      apply scanLoop_Ok_inv in El as [_ Hr]. rewrite <- Hr. reflexivity.
Qed.

(** What [walkFunc] appends under the shipped table. *)
Lemma scan_recorded open p i f :
  IsDir i = false ->
  is_Some (extensions !! filepath.Ext p) ->
  scan extensions open (newFile p i) = Ok f ->
  recorded f.
Proof.
  intros Hdir [l Hl] Hscan.
  destruct (tableFacts.extensions_keys _ _ Hl) as [Hlow Hname].
  apply scan_Ok_inv in Hscan. cbn [path newFile info] in Hscan.
  rewrite Hlow in Hscan. unfold index in Hscan. rewrite Hl in Hscan.
  change (default zeroLanguage (Some l)) with l in Hscan.
  cbn [lang setLang] in Hscan. unfold recorded.
  destruct Hscan as [[-> [Hn | Hs]] | (_ & Hs & tokens & _ & ->)].
  - contradiction.
  - cbn. repeat split; try assumption; try discriminate.
    intros H; contradiction.
  - set (file0 := setLang (newFile p i) l).
    destruct (runLines_path_info (map Text tokens) NORMAL file0)
      as [Hp Hi].
    pose proof (runLines_lang (map Text tokens) NORMAL file0) as Hlang.
    pose proof (linesSum_runLines (map Text tokens) NORMAL file0
                  ltac:(reflexivity)) as Hsum.
    cbn [info path lang scanned setScanned].
    rewrite Hp, Hi, Hlang. cbn [path info lang file0 setLang newFile].
    repeat split; try assumption. intros _. exact Hs.
Qed.

Lemma grows_refl Q files : grows Q files files.
Proof. exists []. split; [symmetry; apply app_nil_r | constructor]. Qed.

Lemma grows_trans Q a b c : grows Q a b -> grows Q b c -> grows Q a c.
Proof.
  intros (n1 & -> & H1) (n2 & -> & H2). exists (n1 ++ n2)%list.
  split; [symmetry; apply app_assoc | apply Forall_app; split; assumption].
Qed.

Lemma walkFunc_grows open files p i files' r :
  walkFunc extensions open files p i = Ok (files', r) ->
  grows recorded files files'.
Proof.
  unfold walkFunc. destruct (IsDir i) eqn:Hdir.
  - repeat case_match; intros [= <- <-]; apply grows_refl.
  - destruct (extensions !! filepath.Ext p) as [l|] eqn:Hl.
    + destruct (scan extensions open (newFile p i)) as [f | e] eqn:Hs;
        [|discriminate].
      intros [= <- <-]. exists [f]. split; [reflexivity|].
      constructor; [|constructor].
      apply (scan_recorded open p i f Hdir); [rewrite Hl; eauto | exact Hs].
    + intros [= <- <-]. apply grows_refl.
Qed.

Lemma walkEntries_grows walkOne es :
  Forall (fun e => forall files files' r,
            walkOne e files = Ok (files', r) -> grows recorded files files')
         es ->
  forall files files' r,
    walkEntries walkOne es files = Ok (files', r) ->
    grows recorded files files'.
Proof.
  induction 1 as [|e es He _ IH]; intros files files' r; cbn.
  - intros [= <- <-]. apply grows_refl.
  - destruct (walkOne e files) as [[files1 [|]] | err] eqn:E;
      [| |discriminate].
    + intros H. eapply grows_trans; [eapply He, E | eapply IH, H].
    + destruct (IsDir (ninfoOf e)).
      * intros H. eapply grows_trans; [eapply He, E | eapply IH, H].
      * intros [= <- <-]. eapply He, E.
Qed.

Lemma walk_grows open n :
  forall files files' r,
    walk extensions open n files = Ok (files', r) ->
    grows recorded files files'.
Proof.
  induction n as [p i es IH] using Node_forall_ind.
  intros files files' r. cbn [walk].
  destruct (negb (IsDir i)); [apply walkFunc_grows|].
  destruct (walkFunc extensions open files p i)
    as [[files1 [|]] | err] eqn:E; [| |discriminate].
  - intros H. eapply grows_trans; [eapply walkFunc_grows, E|].
    eapply walkEntries_grows; [exact IH | exact H].
  - intros [= <- <-]. eapply walkFunc_grows, E.
Qed.

End walkFacts.

(** X9. A directory other than [.] whose name starts with a dot or is
    [__pycache__] is not entered: no file below it is scanned or recorded,
    the walk goes on as if the directory were not there, and a walk rooted
    at such a directory collects nothing. *)
Theorem hidden_directory_skipped (exts : gmap string Language)
    (open : FileSystem) (p : string) (i : FileInfo)
    (es before after : list Node) (files : list File) :
  skippedDir p i ->
  walk exts open (MkNode p i es) files = Ok (files, SkipDir)
  /\ walkEntries (walk exts open) (before ++ MkNode p i es :: after) files
     = walkEntries (walk exts open) (before ++ after) files
  /\ Walk open (MkNode p i es) = Ok [].
Proof.
  intros (Hdir & Hp & Hname).
  assert (Hf : forall fs, walkFunc exts open fs p i = Ok (fs, SkipDir)).
  { intros fs. unfold walkFunc. rewrite Hdir.
    apply String.eqb_neq in Hp. rewrite Hp.
    destruct Hname as [-> | ->]; [reflexivity|].
    destruct (HasPrefix "__pycache__" "."); reflexivity. }
  assert (Hwalk : forall fs, walk exts open (MkNode p i es) fs
                             = Ok (fs, SkipDir)).
  { intros fs. cbn [walk]. rewrite Hdir. cbn [negb]. rewrite Hf.
    reflexivity. }
  split; [apply Hwalk|]. split.
  - rewrite !walkFacts.walkEntries_split.
    destruct (walkEntries (walk exts open) before files)
      as [[files1 [|]] | err]; try reflexivity.
    cbn [walkEntries]. rewrite Hwalk. cbn [ninfoOf]. rewrite Hdir.
    reflexivity.
  - unfold Walk. cbn [walk]. rewrite Hdir. cbn [negb].
    assert (Hf' : walkFunc extensions open [] p i = Ok ([], SkipDir)).
    { unfold walkFunc. rewrite Hdir.
      apply String.eqb_neq in Hp. rewrite Hp.
      destruct Hname as [-> | ->]; [reflexivity|].
      destruct (HasPrefix "__pycache__" "."); reflexivity. }
    rewrite Hf'. reflexivity.
Qed.

(** The parent directory given as the root: nothing is collected. *)
Lemma hidden_directory_skipped_witness :
  walk extensions Trees.project_open Trees.parent [] = Ok ([], SkipDir)
  /\ walkEntries (walk extensions Trees.project_open)
       ([] ++ Trees.parent :: []) []
     = walkEntries (walk extensions Trees.project_open) ([] ++ []) []
  /\ Walk Trees.project_open Trees.parent = Ok [].
Proof.
  apply (hidden_directory_skipped extensions Trees.project_open ".."
           (Samples.directory "..")
           [MkNode "../main.c" (Samples.regular "main.c" 40) []]
           [] [] []).
  split; [reflexivity|]. split; [discriminate|]. left. reflexivity.
Defined.

(** X10. Every record the walk of [main] collects is of a regular file
    whose extension, as written, is a key of the table; its rule is that
    entry and has a name; it is scanned exactly when the file is not empty;
    and its counters satisfy [lines == code + comments + blanks]. *)
Theorem Walk_records (open : FileSystem) (root : Node)
    (files : list File) :
  Walk open root = Ok files -> Forall recorded files.
Proof.
  unfold Walk.
  destruct (walk extensions open root []) as [[fs r] | err] eqn:E;
    [|discriminate].
  intros [= <-]. apply walkFacts.walk_grows in E as (new & -> & Hnew).
  exact Hnew.
Qed.

Lemma Walk_records_witness : Forall recorded Trees.project_files.
Proof.
  apply (Walk_records Trees.project_open Trees.project Trees.project_files).
  vm_compute. reflexivity.
Defined.

(** ** The totals *)

Module totalFacts.
Import GoIntModular.

Lemma scannedFiles_snoc files f :
  scannedFiles (files ++ [f])
  = (scannedFiles files ++ if scanned f then [f] else [])%list.
Proof. unfold scannedFiles. rewrite List.filter_app. reflexivity. Qed.

Lemma sumZ_app l1 l2 : sumZ (l1 ++ l2) = sumZ l1 + sumZ l2.
Proof.
  unfold sumZ. induction l1 as [|x l1 IH]; cbn; [reflexivity|].
  cbn in IH. rewrite IH. lia.
Qed.

Lemma total_snoc files f : total (files ++ [f]) = totalFile (total files) f.
Proof. unfold total. rewrite fold_left_app. reflexivity. Qed.

(** The totals are the sums over the scanned records. *)
Lemma total_spec files :
  total files
  = {| file_count := wrap (Z.of_nat (length (scannedFiles files)));
       blank_count := wrap (sumZ (map blanks (scannedFiles files)));
       comment_count := wrap (sumZ (map comments (scannedFiles files)));
       code_count := wrap (sumZ (map code (scannedFiles files)));
       line_count := wrap (sumZ (map lines (scannedFiles files))) |}.
Proof.
  induction files as [|f files IH] using rev_ind.
  - reflexivity.
  - rewrite total_snoc, IH, scannedFiles_snoc. unfold totalFile.
    destruct (scanned f).
    + cbn [file_count blank_count comment_count code_count line_count].
      rewrite !map_app, !sumZ_app, length_app. cbn [map length sumZ
        fold_right]. unfold incr, add. rewrite !wrap_add_l.
      f_equal; f_equal; lia.
    + rewrite app_nil_r. reflexivity.
Qed.

Lemma scanned_sum_perm (g : File -> Z) files files' :
  Permutation files files' ->
  sumZ (map g (scannedFiles files)) = sumZ (map g (scannedFiles files'))
  /\ length (scannedFiles files) = length (scannedFiles files').
Proof.
  unfold scannedFiles, sumZ.
  induction 1 as [|x l l' _ [IH1 IH2] | x y l | l l' l'' _ [I1 I2] _ [J1 J2]].
  - split; reflexivity.
  - cbn. destruct (scanned x); cbn; split; congruence.
  - cbn. destruct (scanned x), (scanned y); cbn; split; lia.
  - split; congruence.
Qed.

Lemma total_perm files files' :
  Permutation files files' -> total files = total files'.
Proof.
  intros H. rewrite !total_spec.
  destruct (scanned_sum_perm blanks _ _ H) as [-> ->].
  destruct (scanned_sum_perm comments _ _ H) as [-> _].
  destruct (scanned_sum_perm code _ _ H) as [-> _].
  destruct (scanned_sum_perm lines _ _ H) as [-> _].
  reflexivity.
Qed.

Lemma linesSum_eqm f :
  linesSum f -> eqm (lines f) (code f + comments f + blanks f).
Proof.
  unfold linesSum. intros ->. unfold add.
  rewrite wrap_eqm, wrap_eqm. reflexivity.
Qed.

Lemma scanned_sums_eqm files :
  Forall (fun f => scanned f = true -> linesSum f) files ->
  eqm (sumZ (map lines (scannedFiles files)))
      (sumZ (map code (scannedFiles files))
       + sumZ (map comments (scannedFiles files))
       + sumZ (map blanks (scannedFiles files))).
Proof.
  unfold scannedFiles, sumZ.
  induction 1 as [|f files Hf _ IH]; cbn; [reflexivity|].
  destruct (scanned f); [|exact IH]. cbn.
  rewrite IH, (linesSum_eqm f (Hf eq_refl)).
  match goal with |- eqm ?a ?b => replace a with b by lia end.
  reflexivity.
Qed.

Lemma totalsSum_total files :
  Forall (fun f => scanned f = true -> linesSum f) files ->
  totalsSum (total files).
Proof.
  intros H. unfold totalsSum. rewrite total_spec.
  cbn [line_count code_count comment_count blank_count]. unfold add.
  apply wrap_proper. rewrite !wrap_eqm. apply scanned_sums_eqm, H.
Qed.

End totalFacts.

(** X11. The totals of [main] are, column by column, the sums over the
    records with [scanned = true], reduced to [int]; a record that was not
    scanned adds nothing, not even to the number of files. *)
Theorem total_sums_scanned (files : list File) :
  total files
  = {| file_count := wrap (Z.of_nat (length (scannedFiles files)));
       blank_count := wrap (sumZ (map blanks (scannedFiles files)));
       comment_count := wrap (sumZ (map comments (scannedFiles files)));
       code_count := wrap (sumZ (map code (scannedFiles files)));
       line_count := wrap (sumZ (map lines (scannedFiles files))) |}.
Proof. exact (totalFacts.total_spec files). Qed.

(** X12. The totals do not depend on the order in which the records were
    collected. *)
Theorem total_order_independent (files files' : list File) :
  Permutation files files' -> total files = total files'.
Proof. exact (totalFacts.total_perm files files'). Qed.

Lemma total_order_independent_witness :
  total Trees.project_files = total (rev Trees.project_files).
Proof.
  apply (total_order_independent Trees.project_files
           (rev Trees.project_files)).
  apply Permutation_rev.
Defined.

(** X13. After a walk that ends without a panic, the totals line satisfies
    the same equation as every record: the total of the lines is the total
    of the code, comment and blank lines, as [int] adds them. *)
Theorem Walk_totals_consistent (open : FileSystem) (root : Node)
    (files : list File) :
  Walk open root = Ok files -> totalsSum (total files).
Proof.
  unfold Walk.
  destruct (walk extensions open root []) as [[fs r] | err] eqn:E;
    [|discriminate].
  intros [= <-]. apply walkFacts.walk_grows in E as (new & -> & Hnew).
  apply totalFacts.totalsSum_total. cbn [app].
  eapply Forall_impl; [exact Hnew|].
  intros f (_ & _ & _ & _ & Hsum) _. exact Hsum.
Qed.

Lemma Walk_totals_consistent_witness :
  totalsSum (total Trees.project_files).
Proof.
  apply (Walk_totals_consistent Trees.project_open Trees.project
           Trees.project_files).
  vm_compute. reflexivity.
Defined.

(** ** The order of strings and the [Less] methods *)

Module orderFacts.

Lemma compare_bridge (a b : string) :
  String.compare a b = String_as_OT.compare a b.
Proof.
  revert b. induction a as [|x a IH]; intros [|y b]; cbn; try reflexivity.
Qed.

Lemma ltb_lt (a b : string) :
  String.ltb a b = true <-> String_as_OT.lt a b.
Proof.
  unfold String.ltb, String_as_OT.lt. rewrite compare_bridge.
  destruct (String_as_OT.compare a b); split; congruence.
Qed.

Lemma ltb_irrefl (a : string) : String.ltb a a = false.
Proof.
  apply not_true_iff_false. rewrite ltb_lt.
  apply (StrictOrder_Irreflexive (R := String_as_OT.lt)).
Qed.

Lemma ltb_trans (a b c : string) :
  String.ltb a b = true -> String.ltb b c = true -> String.ltb a c = true.
Proof.
  rewrite !ltb_lt. apply (StrictOrder_Transitive (R := String_as_OT.lt)).
Qed.

(** Of two different strings one is less than the other. *)
Lemma ltb_total (a b : string) :
  String.ltb a b = false -> String.ltb b a = false -> a = b.
Proof.
  rewrite <- !not_true_iff_false, !ltb_lt. intros H1 H2.
  destruct (String_as_OT.compare_spec a b) as [E | L | L];
    [exact E | contradiction | contradiction].
Qed.

Lemma ltb_negtrans (a b c : string) :
  String.ltb a b = false -> String.ltb b c = false ->
  String.ltb a c = false.
Proof.
  intros H1 H2. apply not_true_iff_false. intros H3.
  destruct (String.ltb b a) eqn:Hba.
  - rewrite (ltb_trans b a c Hba H3) in H2. discriminate.
  - rewrite (ltb_total a b H1 Hba) in H3. congruence.
Qed.

Lemma strictWeak_by_string (key : File -> string) :
  strictWeak (fun a b => String.ltb (key a) (key b)).
Proof.
  split; [|split].
  - intros a. apply ltb_irrefl.
  - intros a b c. apply ltb_trans.
  - intros a b c. apply ltb_negtrans.
Qed.

Lemma strictWeak_lessLines : strictWeak lessLines.
Proof.
  unfold lessLines. split; [|split].
  - intros a. rewrite Z.gtb_ltb. apply Z.ltb_irrefl.
  - intros a b c. rewrite !Z.gtb_ltb, !Z.ltb_lt. lia.
  - intros a b c. rewrite !Z.gtb_ltb, !Z.ltb_ge. lia.
Qed.

(** *** The insertion sort meets the contract *)

Lemma insertFile_perm less x l : Permutation (insertFile less x l) (x :: l).
Proof.
  induction l as [|y l IH]; cbn; [reflexivity|].
  destruct (less y x); [|reflexivity].
  rewrite IH. apply perm_swap.
Qed.

Lemma insertionSort_perm less l : Permutation (insertionSort less l) l.
Proof.
  induction l as [|x l IH]; cbn; [reflexivity|].
  rewrite insertFile_perm, IH. reflexivity.
Qed.

Lemma insertFile_sorted less x l :
  strictWeak less ->
  Sorted (fun a b => less b a = false) l ->
  Sorted (fun a b => less b a = false) (insertFile less x l).
Proof.
  intros (Hirr & Htr & _) Hs.
  assert (Hasym : forall a b, less a b = true -> less b a = false).
  { intros a b Hab. destruct (less b a) eqn:Hba; [|reflexivity].
    rewrite <- (Hirr a). symmetry. exact (Htr a b a Hab Hba). }
  induction Hs as [|y l Hl IH Hhd]; cbn.
  - repeat constructor.
  - destruct (less y x) eqn:E.
    + constructor; [exact IH|].
      destruct l as [|z l]; cbn.
      * constructor. apply Hasym, E.
      * destruct (less z x); constructor.
        -- inversion Hhd; assumption.
        -- apply Hasym, E.
    + constructor; [constructor; assumption | constructor; exact E].
Qed.

Lemma insertionSort_contract : sortContract insertionSort.
Proof.
  intros less l. split; [apply insertionSort_perm|].
  intros Hsw. induction l as [|x l IH]; cbn; [constructor|].
  apply insertFile_sorted; assumption.
Qed.

End orderFacts.

(** X14. Each of the three [Less] methods is a strict weak ordering, as
    [sort.Sort] needs: by descending [lines], by language name, by path. *)
Theorem less_methods_strict_weak :
  strictWeak lessLines /\ strictWeak lessLang /\ strictWeak lessPath.
Proof.
  split; [apply orderFacts.strictWeak_lessLines|].
  split.
  - apply (orderFacts.strictWeak_by_string (fun f => name (lang f))).
  - apply (orderFacts.strictWeak_by_string path).
Qed.

(** ** The report *)

Module reportFacts.
Import GoIntModular totalFacts.

(** How each column is carried from the records to the rows. *)
Lemma column_cases (c : Column) :
  c ∈ columns ->
  (forall lbl g, ofRow c (groupRow lbl g) = ofGroup c g)
  /\ (forall f, ofRow c (fileRow f) = ofFile c f)
  /\ (forall k f, ofGroup c (startGroup k f) = ofFile c f)
  /\ (forall k f g,
        eqm (ofGroup c (addToGroup k f g)) (ofFile c f + ofGroup c g))
  /\ ofGroup c noGroup = 0.
Proof.
  unfold columns. rewrite !elem_of_cons, elem_of_nil.
  intros [-> | [-> | [-> | [-> | [-> | []]]]]];
    (split; [reflexivity|]); (split; [reflexivity|]);
    (split; [reflexivity|]); (split; [|reflexivity]);
    intros k f g; cbn.
  - rewrite incr_eqm_succ, Z.add_comm. reflexivity.
  - apply add_eqm_sum.
  - apply add_eqm_sum.
  - apply add_eqm_sum.
  - apply add_eqm_sum.
Qed.

Lemma sumZ_cons x l : sumZ (x :: l) = x + sumZ l.
Proof. reflexivity. Qed.

Lemma sumZ_ones {A} (l : list A) :
  sumZ (map (fun _ => 1) l) = Z.of_nat (length l).
Proof.
  induction l as [|x l IH]; [reflexivity|].
  cbn [map length]. rewrite sumZ_cons, IH. lia.
Qed.

Lemma scannedFiles_cons f files :
  scannedFiles (f :: files)
  = if scanned f then f :: scannedFiles files else scannedFiles files.
Proof. reflexivity. Qed.

(** The rows of a grouping loop hold what the group held and what the
    scanned records add, column by column. *)
Lemma groupLoop_sum c keyOf shorten files g :
  c ∈ columns ->
  eqm (sumZ (map (ofRow c) (groupLoop keyOf shorten files g)))
      (ofGroup c g + sumZ (map (ofFile c) (scannedFiles files))).
Proof.
  intros Hc. destruct (column_cases c Hc) as (Hrow & _ & Hstart & Hadd & _).
  revert g. induction files as [|f files IH]; intros g.
  - cbn. rewrite Hrow. reflexivity.
  - cbn [groupLoop]. rewrite scannedFiles_cons.
    destruct (scanned f); cbn [negb]; [|apply IH].
    cbn zeta. destruct (negb _).
    + cbn [map]. rewrite !sumZ_cons, IH, Hrow, Hstart. reflexivity.
    + cbn [map]. rewrite sumZ_cons, IH, Hadd.
      match goal with |- eqm ?a ?b => replace a with b by lia end.
      reflexivity.
Qed.

Lemma fileRows_sum c files :
  c ∈ columns ->
  sumZ (map (ofRow c) (fileRows files))
  = sumZ (map (ofFile c) (scannedFiles files)).
Proof.
  intros Hc. destruct (column_cases c Hc) as (_ & Hrow & _).
  induction files as [|f files IH]; [reflexivity|].
  cbn [fileRows]. rewrite scannedFiles_cons.
  destruct (scanned f); cbn [negb map]; [|exact IH].
  rewrite !sumZ_cons, IH, Hrow. reflexivity.
Qed.

(** Each column of a report adds up to that of the scanned records. *)
Lemma report_column sortFiles byfile bypath files c :
  (forall less l, Permutation (sortFiles less l) l) ->
  c ∈ columns ->
  eqm (sumZ (map (ofRow c) (reportDetail sortFiles byfile bypath files)))
      (sumZ (map (ofFile c) (scannedFiles files))).
Proof.
  intros Hperm Hc. destruct (column_cases c Hc) as (_ & _ & _ & _ & Hzero).
  unfold reportDetail. destruct byfile; [|destruct bypath].
  - rewrite (fileRows_sum c _ Hc).
    destruct (scanned_sum_perm (ofFile c) _ _ (Hperm lessLines files))
      as [-> _]. reflexivity.
  - rewrite (groupLoop_sum c _ _ _ _ Hc), Hzero.
    destruct (scanned_sum_perm (ofFile c) _ _ (Hperm lessPath files))
      as [-> _]. reflexivity.
  - rewrite (groupLoop_sum c _ _ _ _ Hc), Hzero.
    destruct (scanned_sum_perm (ofFile c) _ _ (Hperm lessLang files))
      as [-> _]. reflexivity.
Qed.

Lemma sumRows_snoc rows r :
  sumRows (rows ++ [r])
  = {| file_count := add (file_count (sumRows rows)) (rcount r);
       blank_count := add (blank_count (sumRows rows)) (rblanks r);
       comment_count := add (comment_count (sumRows rows)) (rcomments r);
       code_count := add (code_count (sumRows rows)) (rcode r);
       line_count := add (line_count (sumRows rows)) (rlines r) |}.
Proof. unfold sumRows. rewrite fold_left_app. reflexivity. Qed.

Lemma sumRows_spec rows :
  sumRows rows
  = {| file_count := wrap (sumZ (map rcount rows));
       blank_count := wrap (sumZ (map rblanks rows));
       comment_count := wrap (sumZ (map rcomments rows));
       code_count := wrap (sumZ (map rcode rows));
       line_count := wrap (sumZ (map rlines rows)) |}.
Proof.
  induction rows as [|r rows IH] using rev_ind; [reflexivity|].
  rewrite sumRows_snoc, IH.
  cbn [file_count blank_count comment_count code_count line_count].
  rewrite !map_app, !sumZ_app. cbn [map sumZ fold_right].
  unfold add. rewrite !wrap_add_l. f_equal; f_equal; lia.
Qed.

End reportFacts.

(** X15. Whatever the flags, the rows of the report add up, column by
    column, to the totals line of [main]: number of files, blank, comment,
    code and total lines (sums in [int]). *)
Theorem report_rows_add_up
    (sortFiles : (File -> File -> bool) -> list File -> list File)
    (byfile bypath : bool) (files : list File) :
  (forall less l, Permutation (sortFiles less l) l) ->
  sumRows (reportDetail sortFiles byfile bypath files) = total files.
Proof.
  intros Hperm.
  rewrite reportFacts.sumRows_spec, totalFacts.total_spec.
  assert (Hcol : forall c, c ∈ columns ->
            wrap (sumZ (map (ofRow c)
                          (reportDetail sortFiles byfile bypath files)))
            = wrap (sumZ (map (ofFile c) (scannedFiles files)))).
  { intros c Hc. apply GoIntModular.wrap_proper.
    apply reportFacts.report_column; assumption. }
  pose proof (Hcol colCount ltac:(unfold columns; set_solver)) as H1.
  pose proof (Hcol colBlanks ltac:(unfold columns; set_solver)) as H2.
  pose proof (Hcol colComments ltac:(unfold columns; set_solver)) as H3.
  pose proof (Hcol colCode ltac:(unfold columns; set_solver)) as H4.
  pose proof (Hcol colLines ltac:(unfold columns; set_solver)) as H5.
  cbn [ofRow ofFile colCount colBlanks colComments colCode colLines]
    in H1, H2, H3, H4, H5.
  rewrite reportFacts.sumZ_ones in H1.
  rewrite H1, H2, H3, H4, H5. reflexivity.
Qed.

(** The report by language of [Trees.project_files]. *)
Lemma report_rows_add_up_witness :
  sumRows (reportDetail insertionSort false false Trees.project_files)
  = total Trees.project_files.
Proof.
  apply (report_rows_add_up insertionSort false false Trees.project_files).
  intros less l. apply orderFacts.insertionSort_perm.
Defined.

(** ** The report by language *)

Module groupFacts.
Import GoIntModular totalFacts reportFacts orderFacts.

Lemma filter_perm {A} (p : A -> bool) (l l' : list A) :
  Permutation l l' -> Permutation (List.filter p l) (List.filter p l').
Proof.
  induction 1 as [|x l l' _ IH | x y l | l l' l'' _ IH1 _ IH2]; cbn.
  - constructor.
  - destruct (p x); [constructor|]; exact IH.
  - destruct (p x), (p y); try reflexivity. apply perm_swap.
  - etransitivity; eassumption.
Qed.

Lemma sumZ_perm (l l' : list Z) : Permutation l l' -> sumZ l = sumZ l'.
Proof.
  unfold sumZ. induction 1; cbn in *; lia.
Qed.

Lemma scannedWith_perm keyOf k files files' :
  Permutation files files' ->
  Permutation (scannedWith keyOf k files) (scannedWith keyOf k files').
Proof. intros H. unfold scannedWith, scannedFiles. do 2 apply filter_perm. exact H. Qed.

Lemma scannedWith_cons keyOf k f files :
  scannedWith keyOf k (f :: files)
  = if scanned f && String.eqb (keyOf f) k
    then f :: scannedWith keyOf k files
    else scannedWith keyOf k files.
Proof.
  unfold scannedWith. rewrite scannedFiles_cons.
  destruct (scanned f); [|reflexivity]. cbn.
  destruct (String.eqb (keyOf f) k); reflexivity.
Qed.

Lemma rowsWith_cons k r rows :
  rowsWith k (r :: rows)
  = if String.eqb (label r) k then r :: rowsWith k rows
    else rowsWith k rows.
Proof. reflexivity. Qed.

(** The rows under one label hold what the group held, if that is its
    key, and what the scanned records with that key add. *)
Lemma groupLoop_key_sum c keyOf k files g :
  c ∈ columns ->
  (gkey g = "" -> ofGroup c g = 0) ->
  Forall (fun f => scanned f = true -> keyOf f <> "") files ->
  eqm (sumZ (map (ofRow c)
               (rowsWith k (groupLoop keyOf (fun s => s) files g))))
      ((if String.eqb (gkey g) k then ofGroup c g else 0)
       + sumZ (map (ofFile c) (scannedWith keyOf k files))).
Proof.
  intros Hc. destruct (column_cases c Hc) as (Hrow & _ & Hstart & Hadd & _).
  intros Hg Hkeys. revert g Hg.
  induction Hkeys as [|f files Hf _ IH]; intros g Hg.
  - cbn [groupLoop]. rewrite rowsWith_cons. cbn [label groupRow].
    destruct (String.eqb (gkey g) k); cbn; rewrite ?Hrow; reflexivity.
  - cbn [groupLoop]. rewrite scannedWith_cons.
    destruct (scanned f) eqn:Hs; cbn [negb andb]; [|apply IH, Hg].
    specialize (Hf eq_refl). cbn zeta.
    destruct (String.eqb (gkey g) "") eqn:Eg.
    + (* the first scanned record *)
      apply String.eqb_eq in Eg. rewrite String.eqb_refl. cbn [negb].
      rewrite IH by (cbn; intros H; contradiction).
      cbn [gkey addToGroup]. rewrite Eg, (Hg Eg).
      assert (Hk0 : (if String.eqb "" k then 0 else 0) = 0)
        by (destruct (String.eqb "" k); reflexivity).
      rewrite Hk0.
      destruct (String.eqb (keyOf f) k); cbn [map];
        rewrite ?sumZ_cons, ?Hadd, ?(Hg Eg).
      * match goal with |- eqm ?a ?b => replace a with b by lia end.
        reflexivity.
      * reflexivity.
    + destruct (String.eqb (gkey g) (keyOf f)) eqn:Ek; cbn [negb].
      * apply String.eqb_eq in Ek.
        rewrite IH by (cbn; intros H; rewrite H in Eg; discriminate).
        cbn [gkey addToGroup]. rewrite <- Ek.
        destruct (String.eqb (gkey g) k); cbn [map];
          rewrite ?sumZ_cons, ?Hadd.
        -- match goal with |- eqm ?a ?b => replace a with b by lia end.
           reflexivity.
        -- reflexivity.
      * rewrite rowsWith_cons. cbn [label groupRow].
        destruct (String.eqb (gkey g) k); cbn [map];
          rewrite ?sumZ_cons, IH, ?Hrow, ?Hstart
            by (cbn; intros H; contradiction);
          cbn [gkey startGroup];
          destruct (String.eqb (keyOf f) k); cbn [map];
          rewrite ?sumZ_cons;
          match goal with |- eqm ?a ?b => replace a with b by lia end;
          reflexivity.
Qed.

End groupFacts.

Module labelFacts.
Import GoIntModular totalFacts reportFacts orderFacts groupFacts.

Local Abbreviation plain := (fun s : string => s).
Local Abbreviation labelsOf rows := (map label rows).
Local Abbreviation ascending :=
  (StronglySorted (fun a b => String.ltb a b = true)).

(** With a key in hand, the labels start with it and ascend. *)
Lemma groupLoop_labels_from keyOf files g :
  gkey g <> "" ->
  Forall (fun f => scanned f = true -> keyOf f <> "") files ->
  StronglySorted (fun a b => String.ltb (keyOf b) (keyOf a) = false)
                 (scannedFiles files) ->
  Forall (fun f => String.ltb (keyOf f) (gkey g) = false)
         (scannedFiles files) ->
  ascending (labelsOf (groupLoop keyOf plain files g))
  /\ Forall (fun lbl => lbl = gkey g \/ String.ltb (gkey g) lbl = true)
            (labelsOf (groupLoop keyOf plain files g)).
Proof.
  intros Hg Hkeys. revert g Hg.
  induction Hkeys as [|f files Hf _ IH]; intros g Hg Hsorted Hge.
  - cbn. split; repeat constructor.
  - cbn [groupLoop]. rewrite scannedFiles_cons in Hsorted, Hge.
    destruct (scanned f) eqn:Hs; cbn [negb]; [|apply IH; assumption].
    specialize (Hf eq_refl).
    apply StronglySorted_inv in Hsorted as [Hsorted Hfirst].
    apply Forall_cons in Hge as [Hgf Hge].
    apply String.eqb_neq in Hg as Hg'. cbn zeta. rewrite Hg'.
    destruct (String.eqb (gkey g) (keyOf f)) eqn:Ek; cbn [negb].
    + destruct (IH (addToGroup (gkey g) f g) Hg Hsorted Hge) as [I1 I2].
      split; assumption.
    + apply String.eqb_neq in Ek.
      assert (Hlt : String.ltb (gkey g) (keyOf f) = true).
      { destruct (String.ltb (gkey g) (keyOf f)) eqn:E; [reflexivity|].
        exfalso. apply Ek. apply ltb_total; assumption. }
      destruct (IH (startGroup (keyOf f) f) Hf Hsorted Hfirst) as [I1 I2].
      cbn [gkey startGroup] in I2.
      assert (Hall : Forall (fun lbl => String.ltb (gkey g) lbl = true)
                (labelsOf (groupLoop keyOf plain files
                                     (startGroup (keyOf f) f)))).
      { eapply Forall_impl; [exact I2|]. intros lbl [-> | H]; [exact Hlt|].
        eapply ltb_trans; eassumption. }
      cbn [map label groupRow]. split.
      * constructor; assumption.
      * constructor; [left; reflexivity|].
        eapply Forall_impl; [exact Hall|]. intros lbl H. right. exact H.
Qed.

(** From the start of the loop the labels ascend. *)
Lemma groupLoop_labels_sorted keyOf files :
  Forall (fun f => scanned f = true -> keyOf f <> "") files ->
  StronglySorted (fun a b => String.ltb (keyOf b) (keyOf a) = false)
                 (scannedFiles files) ->
  ascending (labelsOf (groupLoop keyOf plain files noGroup)).
Proof.
  induction 1 as [|f files Hf Hkeys IH]; intros Hsorted.
  - cbn. repeat constructor.
  - cbn [groupLoop]. rewrite scannedFiles_cons in Hsorted.
    destruct (scanned f) eqn:Hs; cbn [negb]; [|apply IH; assumption].
    specialize (Hf eq_refl).
    apply StronglySorted_inv in Hsorted as [Hsorted Hfirst].
    cbn. rewrite String.eqb_refl. cbn [negb].
    apply (groupLoop_labels_from keyOf files (addToGroup (keyOf f) f noGroup));
      assumption.
Qed.

(** The key in hand is printed. *)
Lemma groupLoop_key_printed keyOf files g :
  gkey g <> "" ->
  gkey g ∈ labelsOf (groupLoop keyOf plain files g).
Proof.
  revert g. induction files as [|f files IH]; intros g Hg.
  - cbn. left.
  - cbn [groupLoop]. destruct (scanned f); cbn [negb]; [|apply IH, Hg].
    apply String.eqb_neq in Hg as Hg'. cbn zeta. rewrite Hg'.
    destruct (negb _).
    + cbn. left.
    + apply (IH (addToGroup (gkey g) f g)). exact Hg.
Qed.

(** The key of every scanned record is printed. *)
Lemma groupLoop_keys_printed keyOf files g f :
  Forall (fun f => scanned f = true -> keyOf f <> "") files ->
  f ∈ files -> scanned f = true ->
  keyOf f ∈ labelsOf (groupLoop keyOf plain files g).
Proof.
  intros Hkeys. revert g.
  induction Hkeys as [|f0 files Hf0 _ IH]; intros g Hin Hs.
  - inversion Hin.
  - cbn [groupLoop]. apply elem_of_cons in Hin as [-> | Hin].
    + rewrite Hs. cbn [negb]. specialize (Hf0 Hs). cbn zeta.
      set (key := if String.eqb (gkey g) "" then keyOf f0 else gkey g).
      clearbody key.
      destruct (String.eqb key (keyOf f0)) eqn:Ek; cbn [negb].
      * apply String.eqb_eq in Ek. subst key.
        apply (groupLoop_key_printed keyOf files
                 (addToGroup (keyOf f0) f0 g)).
        exact Hf0.
      * cbn. right.
        apply (groupLoop_key_printed keyOf files (startGroup (keyOf f0) f0)).
        exact Hf0.
    + destruct (scanned f0); cbn [negb]; [|apply IH; assumption].
      cbn zeta. destruct (negb _).
      * cbn. right. apply IH; assumption.
      * apply IH; assumption.
Qed.

End labelFacts.

Module rowFacts.
Import GoIntModular totalFacts reportFacts orderFacts groupFacts labelFacts.

Lemma column_inRange (c : Column) :
  c ∈ columns ->
  (forall f, countersInRange f -> inRange (ofFile c f))
  /\ (forall k f g, inRange (ofGroup c (addToGroup k f g))).
Proof.
  unfold columns. rewrite !elem_of_cons, elem_of_nil.
  intros [-> | [-> | [-> | [-> | [-> | []]]]]]; split;
    try (intros k f g; apply wrap_inRange);
    intros f (Hl & Hm & Hb & Hc); try assumption.
  unfold inRange, minInt, maxInt. cbn. lia.
Qed.

Lemma groupLoop_inRange c keyOf shorten files g :
  c ∈ columns ->
  Forall countersInRange files ->
  inRange (ofGroup c g) ->
  Forall (fun r => inRange (ofRow c r)) (groupLoop keyOf shorten files g).
Proof.
  intros Hc. destruct (column_cases c Hc) as (Hrow & _ & Hstart & _ & _).
  destruct (column_inRange c Hc) as [Hfile Hadd].
  intros Hfiles. revert g.
  induction Hfiles as [|f files Hf _ IH]; intros g Hg.
  - cbn. constructor; [rewrite Hrow; exact Hg | constructor].
  - cbn [groupLoop]. destruct (scanned f); cbn [negb]; [|apply IH, Hg].
    cbn zeta. destruct (negb _).
    + constructor; [rewrite Hrow; exact Hg|].
      apply IH. rewrite Hstart. apply Hfile, Hf.
    + apply IH, Hadd.
Qed.

(** Among ascending labels a row is the only one under its label. *)
Lemma rowsWith_unique rows r :
  StronglySorted (fun a b => String.ltb a b = true) (map label rows) ->
  r ∈ rows ->
  rowsWith (label r) rows = [r].
Proof.
  induction rows as [|r0 rows IH]; intros Hs Hin; [inversion Hin|].
  cbn [map] in Hs. apply StronglySorted_inv in Hs as [Hs Hall].
  assert (Hnone : forall k,
            (k = label r0 \/ String.ltb k (label r0) = true) ->
            rowsWith k rows = []).
  { intros k Hk. clear IH Hin Hs. induction rows as [|r1 rows IHr];
      [reflexivity|].
    cbn [map] in Hall. apply Forall_cons in Hall as [H1 Hall].
    rewrite rowsWith_cons.
    destruct (String.eqb (label r1) k) eqn:E; [|apply IHr, Hall].
    apply String.eqb_eq in E. subst k. exfalso. destruct Hk as [Hk | Hk].
    - rewrite <- Hk, ltb_irrefl in H1. discriminate.
    - pose proof (ltb_irrefl (label r1)) as Hirr.
      rewrite (ltb_trans _ _ _ Hk H1) in Hirr. discriminate. }
  rewrite rowsWith_cons. apply elem_of_cons in Hin as [-> | Hin].
  - rewrite String.eqb_refl, (Hnone (label r0)) by (left; reflexivity).
    reflexivity.
  - assert (Hlt : String.ltb (label r0) (label r) = true).
    { rewrite Forall_forall in Hall. apply Hall.
      apply list_elem_of_fmap. exists r. split; [reflexivity | exact Hin]. }
    destruct (String.eqb (label r0) (label r)) eqn:E.
    + apply String.eqb_eq in E. rewrite E, ltb_irrefl in Hlt. discriminate.
    + apply IH; assumption.
Qed.

Lemma ascending_rows rows :
  StronglySorted (fun a b => String.ltb a b = true) (map label rows) ->
  StronglySorted (fun r r' => String.ltb (label r) (label r') = true) rows.
Proof.
  induction rows as [|r rows IH]; cbn [map]; intros Hs; [constructor|].
  apply StronglySorted_inv in Hs as [Hs Hall].
  constructor; [apply IH, Hs|].
  rewrite Forall_forall in Hall. apply Forall_forall. intros r' Hr'.
  apply Hall. apply list_elem_of_fmap. exists r'. split; [reflexivity|exact Hr'].
Qed.

(** The scanned records of a sorted slice ascend by key. *)
Lemma sorted_scanned keyOf files :
  Sorted (fun a b => String.ltb (keyOf b) (keyOf a) = false) files ->
  StronglySorted (fun a b => String.ltb (keyOf b) (keyOf a) = false)
                 (scannedFiles files).
Proof.
  intros Hs. apply Sorted_StronglySorted in Hs.
  - unfold scannedFiles. induction Hs as [|f files Hs IH Hall]; cbn;
      [constructor|].
    destruct (scanned f); [|exact IH].
    constructor; [exact IH|].
    rewrite List.Forall_forall in Hall. apply List.Forall_forall.
    intros x Hx. apply List.filter_In in Hx as [Hx _]. apply Hall, Hx.
  - intros a b c Hab Hbc. eapply ltb_negtrans; eassumption.
Qed.

(** One column of one row of the report by key. *)
Lemma group_row_column c keyOf sorted files r :
  c ∈ columns ->
  Permutation sorted files ->
  Forall (fun f => scanned f = true -> keyOf f <> "") sorted ->
  Forall countersInRange sorted ->
  StronglySorted (fun a b => String.ltb a b = true)
    (map label (groupLoop keyOf (fun s => s) sorted noGroup)) ->
  r ∈ groupLoop keyOf (fun s => s) sorted noGroup ->
  ofRow c r
  = wrap (sumZ (map (ofFile c) (scannedWith keyOf (label r) files))).
Proof.
  intros Hc Hperm Hkeys Hrange Hasc Hr.
  destruct (column_cases c Hc) as (_ & _ & _ & _ & Hzero).
  pose proof (groupLoop_key_sum c keyOf (label r) sorted noGroup Hc
                (fun _ => Hzero) Hkeys) as Hsum.
  rewrite (rowsWith_unique _ r Hasc Hr) in Hsum.
  cbn [map] in Hsum. rewrite sumZ_cons in Hsum. cbn [sumZ fold_right] in Hsum.
  rewrite Hzero in Hsum.
  assert (H0 : (if String.eqb (gkey noGroup) (label r) then 0 else 0) = 0)
    by (destruct (String.eqb _ _); reflexivity).
  rewrite H0 in Hsum.
  rewrite (sumZ_perm _ _ (Permutation_map (ofFile c)
             (scannedWith_perm keyOf (label r) _ _ Hperm))) in Hsum.
  assert (Hin : inRange (ofRow c r)).
  { pose proof (groupLoop_inRange c keyOf (fun s => s) sorted noGroup Hc
                  Hrange) as Hall.
    rewrite Forall_forall in Hall. apply Hall; [|exact Hr].
    rewrite Hzero. unfold inRange, minInt, maxInt. lia. }
  rewrite <- (wrap_small _ Hin). apply wrap_proper.
  rewrite <- Hsum.
  match goal with |- eqm ?a ?b => replace b with a by lia end.
  reflexivity.
Qed.

End rowFacts.

(** X16. The report by language, for records whose language has a name and
    whose counters are values of [int]: the labels of the rows ascend
    strictly, so no language has two rows; every language with a scanned
    record has its row; and each row shows the number of the scanned
    records of its language and the sums of their counters. *)
Theorem report_by_language
    (sortFiles : (File -> File -> bool) -> list File -> list File)
    (files : list File) :
  sortContract sortFiles ->
  Forall (fun f => scanned f = true -> name (lang f) <> "") files ->
  Forall countersInRange files ->
  let rows := reportDetail sortFiles false false files in
  StronglySorted (fun r r' => String.ltb (label r) (label r') = true) rows
  /\ (forall f, f ∈ files -> scanned f = true ->
        exists r, r ∈ rows /\ label r = name (lang f))
  /\ (forall r, r ∈ rows ->
        rowSums r (scannedWith (fun f => name (lang f)) (label r) files)).
Proof.
  intros Hsort Hkeys Hrange. unfold reportDetail. cbn zeta.
  destruct (Hsort lessLang files) as [Hperm Hsorted].
  specialize (Hsorted (orderFacts.strictWeak_by_string
                         (fun f => name (lang f)))).
  set (sorted := sortFiles lessLang files) in *.
  set (keyOf := fun f : File => name (lang f)).
  assert (Hkeys' : Forall (fun f => scanned f = true -> keyOf f <> "") sorted).
  { rewrite List.Forall_forall in Hkeys. apply List.Forall_forall.
    intros f Hf. apply Hkeys. eapply Permutation_in; eassumption. }
  assert (Hrange' : Forall countersInRange sorted).
  { rewrite List.Forall_forall in Hrange. apply List.Forall_forall.
    intros f Hf. apply Hrange. eapply Permutation_in; eassumption. }
  assert (Hasc : StronglySorted (fun a b => String.ltb a b = true)
            (map label (groupLoop keyOf (fun s => s) sorted noGroup))).
  { apply labelFacts.groupLoop_labels_sorted; [exact Hkeys'|].
    apply rowFacts.sorted_scanned. exact Hsorted. }
  split; [apply rowFacts.ascending_rows, Hasc|]. split.
  - intros f Hf Hs.
    assert (Hf' : f ∈ sorted).
    { apply list_elem_of_In. apply list_elem_of_In in Hf.
      eapply Permutation_in; [symmetry; exact Hperm | exact Hf]. }
    pose proof (labelFacts.groupLoop_keys_printed keyOf sorted noGroup f
                  Hkeys' Hf' Hs) as Hin.
    apply list_elem_of_fmap in Hin as (r & Hr1 & Hr2).
    exists r. split; [exact Hr2 | symmetry; exact Hr1].
  - intros r Hr.
    assert (Hcol : forall c, c ∈ columns ->
              ofRow c r
              = wrap (sumZ (map (ofFile c)
                              (scannedWith keyOf (label r) files)))).
    { intros c Hc.
      apply (rowFacts.group_row_column c keyOf sorted files r);
        assumption. }
    pose proof (Hcol colCount ltac:(unfold columns; set_solver)) as H1.
    pose proof (Hcol colBlanks ltac:(unfold columns; set_solver)) as H2.
    pose proof (Hcol colComments ltac:(unfold columns; set_solver)) as H3.
    pose proof (Hcol colCode ltac:(unfold columns; set_solver)) as H4.
    pose proof (Hcol colLines ltac:(unfold columns; set_solver)) as H5.
    cbn [ofRow ofFile colCount colBlanks colComments colCode colLines]
      in H1, H2, H3, H4, H5.
    rewrite reportFacts.sumZ_ones in H1.
    unfold rowSums. repeat split; assumption.
Qed.

(** The report by language of [Trees.project_files]. *)
Lemma report_by_language_witness :
  let rows := reportDetail insertionSort false false Trees.project_files in
  StronglySorted (fun r r' => String.ltb (label r) (label r') = true) rows
  /\ (forall f, f ∈ Trees.project_files -> scanned f = true ->
        exists r, r ∈ rows /\ label r = name (lang f))
  /\ (forall r, r ∈ rows ->
        rowSums r (scannedWith (fun f => name (lang f)) (label r)
                               Trees.project_files)).
Proof.
  apply (report_by_language insertionSort Trees.project_files).
  - apply orderFacts.insertionSort_contract.
  - vm_compute.
    repeat (apply List.Forall_cons; [intros _; discriminate|]).
    apply List.Forall_nil.
  - let v := eval vm_compute in Trees.project_files in
    replace Trees.project_files with v by (vm_compute; reflexivity).
    repeat (apply List.Forall_cons;
            [unfold countersInRange, inRange, minInt, maxInt; cbn; lia|]).
    apply List.Forall_nil.
Defined.
(** ** The report by file and the shortened labels *)

Module fileReportFacts.
Import orderFacts reportFacts.

Lemma length_strApp (s1 s2 : string) :
  String.length (s1 ++ s2)%string
  = (String.length s1 + String.length s2)%nat.
Proof.
  induction s1 as [|c s1 IH]; [reflexivity|].
  change (S (String.length (s1 ++ s2)%string)
          = S (String.length s1 + String.length s2)%nat).
  rewrite IH. reflexivity.
Qed.

Lemma length_strTake (n : nat) (s : string) :
  String.length (strTake n s) = Nat.min n (String.length s).
Proof.
  revert s. induction n as [|n IH]; intros [|c s]; cbn; try reflexivity.
  rewrite IH. reflexivity.
Qed.

Lemma length_strDrop (n : nat) (s : string) :
  String.length (strings.drop n s) = (String.length s - n)%nat.
Proof.
  revert s. induction n as [|n IH]; intros [|c s]; cbn; try reflexivity.
  apply IH.
Qed.

Lemma len_gt_29 (s : string) :
  (len s >? 29) = true <-> (29 < String.length s)%nat.
Proof. unfold len. rewrite Z.gtb_ltb, Z.ltb_lt. lia. Qed.

Lemma fileRows_map files :
  fileRows files = map fileRow (scannedFiles files).
Proof.
  induction files as [|f files IH]; [reflexivity|].
  cbn [fileRows]. rewrite scannedFiles_cons.
  destruct (scanned f); cbn [negb map]; rewrite IH; reflexivity.
Qed.

Lemma shortName_length s : (String.length (shortName s) <= 29)%nat.
Proof.
  unfold shortName. destruct (len s >? 29) eqn:E.
  - apply len_gt_29 in E. rewrite length_strApp, length_strTake.
    cbn [String.length]. lia.
  - apply not_true_iff_false in E. rewrite len_gt_29 in E. lia.
Qed.

(** A sorted slice is sorted throughout, record against record. *)
Lemma sorted_strongly less (l : list File) :
  strictWeak less ->
  Sorted (fun a b => less b a = false) l ->
  StronglySorted (fun a b => less b a = false) l.
Proof.
  intros (_ & _ & Hneg) Hs. apply Sorted_StronglySorted; [|exact Hs].
  intros a b c Hab Hbc. exact (Hneg c b a Hbc Hab).
Qed.

Lemma strongly_sorted_filter {A} (R : A -> A -> Prop) (p : A -> bool) l :
  StronglySorted R l -> StronglySorted R (List.filter p l).
Proof.
  induction 1 as [|x l Hs IH Hall]; cbn; [constructor|].
  destruct (p x); [|exact IH]. constructor; [exact IH|].
  rewrite List.Forall_forall in Hall. apply List.Forall_forall.
  intros y Hy. apply List.filter_In in Hy as [Hy _]. apply Hall, Hy.
Qed.

Lemma strongly_sorted_map {A B} (R : A -> A -> Prop) (S : B -> B -> Prop)
    (g : A -> B) l :
  (forall a b, R a b -> S (g a) (g b)) ->
  StronglySorted R l -> StronglySorted S (map g l).
Proof.
  intros HRS. induction 1 as [|x l Hs IH Hall]; cbn; [constructor|].
  constructor; [exact IH|].
  rewrite List.Forall_forall in Hall. apply List.Forall_forall.
  intros y Hy. apply List.in_map_iff in Hy as (a & <- & Ha).
  apply HRS, Hall, Ha.
Qed.

End fileReportFacts.

(** X17. The report by file has one row for each scanned record, with
    count 1 and the counters of the record; the rows come in descending
    order of [lines], and every label has at most 29 bytes. *)
Theorem report_by_file
    (sortFiles : (File -> File -> bool) -> list File -> list File)
    (files : list File) :
  sortContract sortFiles ->
  let rows := reportDetail sortFiles true false files in
  Permutation rows (map fileRow (scannedFiles files))
  /\ StronglySorted (fun r r' => rlines r' <= rlines r) rows
  /\ Forall (fun r => rcount r = 1 /\ (String.length (label r) <= 29)%nat)
            rows.
Proof.
  intros Hsort. unfold reportDetail. cbn zeta.
  destruct (Hsort lessLines files) as [Hperm Hsorted].
  specialize (Hsorted orderFacts.strictWeak_lessLines).
  rewrite fileReportFacts.fileRows_map. split; [|split].
  - apply Permutation_map. unfold scannedFiles.
    apply groupFacts.filter_perm, Hperm.
  - apply (fileReportFacts.strongly_sorted_map
             (fun a b => lessLines b a = false)).
    + intros a b. unfold lessLines. rewrite Z.gtb_ltb, Z.ltb_ge.
      intros H. exact H.
    + unfold scannedFiles. apply fileReportFacts.strongly_sorted_filter.
      apply fileReportFacts.sorted_strongly;
        [apply orderFacts.strictWeak_lessLines | exact Hsorted].
  - apply List.Forall_forall. intros r Hr.
    apply List.in_map_iff in Hr as (f & <- & _).
    split; [reflexivity | apply fileReportFacts.shortName_length].
Qed.

(** The report by file of [Trees.project_files]. *)
Lemma report_by_file_witness :
  let rows := reportDetail insertionSort true false Trees.project_files in
  Permutation rows (map fileRow (scannedFiles Trees.project_files))
  /\ StronglySorted (fun r r' => rlines r' <= rlines r) rows
  /\ Forall (fun r => rcount r = 1 /\ (String.length (label r) <= 29)%nat)
            rows.
Proof.
  apply (report_by_file insertionSort Trees.project_files).
  apply orderFacts.insertionSort_contract.
Defined.

(** X18. A name or a path of more than 29 bytes is cut to exactly 29
    bytes: the first 27 bytes and two dots for a file name; the first 10
    bytes, three dots and the last 16 bytes for a path.  A shorter one is
    printed as it is. *)
Theorem short_labels_fit (s : string) :
  ((String.length s <= 29)%nat -> shortName s = s /\ shortPath s = s)
  /\ ((29 < String.length s)%nat ->
      shortName s = (strTake 27 s ++ "..")%string
      /\ shortPath s
         = (strTake 10 s ++ "..."
            ++ strings.drop (String.length s - 16) s)%string
      /\ String.length (shortName s) = 29%nat
      /\ String.length (shortPath s) = 29%nat
      /\ HasPrefix s (strTake 27 s) = true).
Proof.
  split.
  - intros Hle. unfold shortName, shortPath.
    destruct (len s >? 29) eqn:E; [|split; reflexivity].
    apply fileReportFacts.len_gt_29 in E. lia.
  - intros Hgt. unfold shortName, shortPath.
    rewrite (proj2 (fileReportFacts.len_gt_29 s) Hgt).
    split; [reflexivity|]. split; [reflexivity|].
    rewrite !fileReportFacts.length_strApp, !fileReportFacts.length_strTake,
      fileReportFacts.length_strDrop.
    cbn [String.length].
    split; [lia|]. split; [lia|].
    clear Hgt. generalize 27%nat. intros n. revert s.
    induction n as [|n IH]; intros [|c s]; cbn; try reflexivity.
    rewrite Ascii.eqb_refl. apply IH.
Qed.

Lemma short_labels_fit_witness :
  shortName "a_rather_long_file_name_for_a_report.go"
  = "a_rather_long_file_name_for.."
  /\ shortPath "src/pkg/deeply/nested/dir/a_long_name.go"
     = "src/pkg/de...r/a_long_name.go".
Proof.
  destruct (proj2 (short_labels_fit
                     "a_rather_long_file_name_for_a_report.go")
              ltac:(cbn; lia)) as (H1 & _).
  destruct (proj2 (short_labels_fit
                     "src/pkg/deeply/nested/dir/a_long_name.go")
              ltac:(cbn; lia)) as (_ & H2 & _).
  split; [exact H1 | exact H2].
Defined.

(** ** [Swap] *)

Module swapFacts.

Lemma fileAt_Some f i a :
  fileAt f i = Some a <-> 0 <= i /\ f !! Z.to_nat i = Some a.
Proof.
  unfold fileAt. destruct (Z.ltb_spec i 0).
  - split; [discriminate | intros [? _]; lia].
  - split; [intros ?; split; [lia | assumption] | intros [_ ?]; assumption].
Qed.

Lemma fileAt_in_range f i :
  is_Some (fileAt f i) <-> 0 <= i < Files_Len f.
Proof.
  unfold Files_Len. split.
  - intros [a Ha]. apply fileAt_Some in Ha as [Hi Ha].
    apply lookup_lt_Some in Ha. lia.
  - intros [Hi Hlt].
    destruct (lookup_lt_is_Some_2 f (Z.to_nat i) ltac:(lia)) as [a Ha].
    exists a. apply fileAt_Some. split; assumption.
Qed.

Lemma fileAt_nonneg f i : 0 <= i -> fileAt f i = f !! Z.to_nat i.
Proof.
  intros Hi. unfold fileAt. destruct (Z.ltb_spec i 0); [lia | reflexivity].
Qed.

End swapFacts.

(** X19. [Swap] on two indexes of the slice exchanges the two records and
    leaves the length and every other record as they were; done twice it
    gives the slice back.  With an index outside the slice it panics. *)
Theorem Files_Swap_exchanges (f : list File) (i j : Z) :
  (0 <= i < Files_Len f -> 0 <= j < Files_Len f ->
   exists f',
     Files_Swap f i j = Ok f'
     /\ Files_Len f' = Files_Len f
     /\ fileAt f' i = fileAt f j
     /\ fileAt f' j = fileAt f i
     /\ (forall k, k <> i -> k <> j -> fileAt f' k = fileAt f k)
     /\ Files_Swap f' i j = Ok f)
  /\ (~ (0 <= i < Files_Len f /\ 0 <= j < Files_Len f) ->
      Files_Swap f i j = Panic indexError).
Proof.
  split.
  - intros Hi Hj.
    destruct (proj2 (swapFacts.fileAt_in_range f i) Hi) as [a Ha].
    destruct (proj2 (swapFacts.fileAt_in_range f j) Hj) as [b Hb].
    unfold Files_Swap. rewrite Ha, Hb.
    apply swapFacts.fileAt_Some in Ha as [Hi0 Ha].
    apply swapFacts.fileAt_Some in Hb as [Hj0 Hb].
    set (I := Z.to_nat i) in *. set (J := Z.to_nat j) in *.
    assert (HI : (I < length f)%nat) by (eapply lookup_lt_Some; eassumption).
    assert (HJ : (J < length f)%nat) by (eapply lookup_lt_Some; eassumption).
    assert (Hj' : <[J:=a]> (<[I:=b]> f) !! J = Some a).
    { apply list_lookup_insert_eq. rewrite length_insert. exact HJ. }
    assert (Hi' : <[J:=a]> (<[I:=b]> f) !! I = Some b).
    { destruct (decide (I = J)) as [E | N].
      - rewrite E in *. rewrite Hj'. congruence.
      - rewrite list_lookup_insert_ne by congruence.
        apply list_lookup_insert_eq. exact HI. }
    set (f' := <[J:=a]> (<[I:=b]> f)) in *.
    exists f'. split; [reflexivity|].
    split; [unfold Files_Len, f'; rewrite !length_insert; reflexivity|].
    unfold Files_Swap.
    rewrite (swapFacts.fileAt_nonneg f' i Hi0),
      (swapFacts.fileAt_nonneg f' j Hj0).
    fold I. fold J. rewrite Hi', Hj'.
    split; [reflexivity|]. split; [reflexivity|]. split.
    + intros k Hki Hkj. unfold fileAt, f'.
      destruct (Z.ltb_spec k 0); [reflexivity|].
      rewrite !list_lookup_insert_ne; [reflexivity | |]; subst I J; lia.
    + f_equal. unfold f'. apply list_eq. intros n.
      destruct (decide (n = J)) as [-> | NJ].
      * rewrite list_lookup_insert_eq by (rewrite !length_insert; exact HJ).
        symmetry. exact Hb.
      * rewrite list_lookup_insert_ne by congruence.
        destruct (decide (n = I)) as [-> | NI].
        -- rewrite list_lookup_insert_eq by (rewrite !length_insert; exact HI).
           symmetry. exact Ha.
        -- rewrite !list_lookup_insert_ne by congruence. reflexivity.
  - intros Hout. unfold Files_Swap.
    destruct (fileAt f i) as [a|] eqn:Ha; [|reflexivity].
    destruct (fileAt f j) as [b|] eqn:Hb; [|reflexivity].
    exfalso. apply Hout. split; apply swapFacts.fileAt_in_range; eauto.
Qed.

(** The first and the third record of [Trees.project_files] exchanged. *)
Lemma Files_Swap_exchanges_witness :
  exists f',
    Files_Swap Trees.project_files 0 2 = Ok f'
    /\ Files_Len f' = Files_Len Trees.project_files
    /\ fileAt f' 0 = fileAt Trees.project_files 2
    /\ fileAt f' 2 = fileAt Trees.project_files 0
    /\ (forall k, k <> 0 -> k <> 2 ->
          fileAt f' k = fileAt Trees.project_files k)
    /\ Files_Swap f' 0 2 = Ok Trees.project_files.
Proof.
  apply (proj1 (Files_Swap_exchanges Trees.project_files 0 2)).
  - vm_compute. split; [discriminate | reflexivity].
  - vm_compute. split; [discriminate | reflexivity].
Defined.

(** ** The report by path *)

Module pathReportFacts.
Import GoInt GoIntFacts reportFacts.





End pathReportFacts.


